(** * Safe Commute Planner: the front-end orchestrator of [App.jsx]

    A shallow embedding of the decision logic of
    [safe-commute-frontend/src/App.jsx]: the two pure helpers
    ([getSafetyLabel], [getEmergencyNumber]), the auto-fit component
    ([MapBounds]) and the asynchronous handlers of the [App] component
    ([geocodeLocation], [fetchRoutes], [triggerPanic], [reportUnsafe]),
    the latter as an event-driven transition system over the React state
    cells and the set of suspended handler invocations. *)

From Stdlib Require Import QArith Ascii Lqa.
From stdpp Require Import gmap strings list fin_maps.

Local Open Scope string_scope.
Local Open Scope list_scope.

(** ** JavaScript numbers

    A JavaScript number is an IEEE-754 double: NaN, one of the two
    infinities, or a finite value, which is a rational.  The relational
    operators of the language compare the mathematical values (both zeros
    are the rational 0) and answer [false] as soon as one side is NaN, so
    the comparisons below are the ones of the language on every double. *)

Inductive JSNum : Type :=
| NaN
| Inf (negative : bool)
| Fin (q : Q).

Definition num_of_Z (z : Z) : JSNum := Fin (inject_Z z).

(** [a >= b] *)
Definition js_ge (a b : JSNum) : bool :=
  match a, b with
  | NaN, _ | _, NaN => false
  | Inf false, _ => true
  | Inf true, Inf true => true
  | Inf true, _ => false
  | Fin _, Inf neg => neg
  | Fin x, Fin y => Qle_bool y x
  end.

(** [a > b] *)
Definition js_gt (a b : JSNum) : bool :=
  match a, b with
  | NaN, _ | _, NaN => false
  | Inf true, _ => false
  | Inf false, Inf false => false
  | Inf false, _ => true
  | Fin _, Inf neg => neg
  | Fin x, Fin y => negb (Qle_bool x y)
  end.

(** [a < b] *)
Definition js_lt (a b : JSNum) : bool := js_gt b a.

(** ToBoolean on a number: [0], [-0] and [NaN] are falsy. *)
Definition num_truthy (a : JSNum) : bool :=
  match a with
  | NaN => false
  | Inf _ => true
  | Fin q => negb (Qeq_bool q 0)
  end.

(** ToBoolean on an optional string property: absent ([undefined] or
    [null]) and the empty string are falsy. *)
Definition str_truthy (o : option string) : bool :=
  match o with
  | Some s => negb (String.eqb s "")
  | None => false
  end.

(** ** Strings: [toLowerCase] and [includes]

    Strings are sequences of 8-bit characters; [toLowerCase] maps the
    letters [A]..[Z] to [a]..[z] and leaves every other character. *)

Definition is_upper (c : ascii) : bool :=
  (65 <=? nat_of_ascii c)%nat && (nat_of_ascii c <=? 90)%nat.

Definition lower_ascii (c : ascii) : ascii :=
  if is_upper c then ascii_of_nat (nat_of_ascii c + 32) else c.

Fixpoint toLowerCase (s : string) : string :=
  match s with
  | EmptyString => EmptyString
  | String c s' => String (lower_ascii c) (toLowerCase s')
  end.

(** [k] is a prefix of [s]. *)
Fixpoint startsWith (s k : string) {struct k} : bool :=
  match k with
  | EmptyString => true
  | String a k' =>
      match s with
      | EmptyString => false
      | String b s' => Ascii.eqb a b && startsWith s' k'
      end
  end.

(** [s.includes(k)]: [k] occurs in [s] at some position. *)
Fixpoint includes (s k : string) : bool :=
  startsWith s k ||
  match s with
  | EmptyString => false
  | String _ s' => includes s' k
  end.

(** ** Safety classifier *)

Definition getSafetyLabel (score : JSNum) : string :=
  if js_ge score (num_of_Z 75) then "safe"
  else if js_ge score (num_of_Z 40) then "moderate"
  else "unsafe".

(** A safe zone of the [/panic] payload; every property but the position
    is optional. *)
Record SafeZone : Type := mkSafeZone {
  zone_lat : JSNum;
  zone_lon : JSNum;
  zone_type : option string;
  zone_name : option string;
  zone_address : option string;
  zone_phone : option string;
  zone_distance_m : option JSNum
}.

Definition getEmergencyNumber (zone : SafeZone) : string :=
  if str_truthy (zone_phone zone) then default "" (zone_phone zone)
  else if negb (str_truthy (zone_type zone)) then "112"
  else
    let t := toLowerCase (default "" (zone_type zone)) in
    if includes t "police" then "100"
    else if includes t "hospital" then "108"
    else if includes t "fire" then "101"
    else "112".

(** ** Routes and the auto-fit component *)

(** A point of a polyline, [[lat, lon]]. *)
Definition LatLng : Type := (JSNum * JSNum)%type.

(** A route object: the properties of the [/route] payload the component
    reads, each possibly absent, and the [safety_label] the handler adds. *)
Record Route : Type := mkRoute {
  coords : option (list LatLng);
  distance_km : option JSNum;
  time_min : option JSNum;
  safety_score : option JSNum;
  safety_label : option string
}.

(** [route?.coords?.length > 0] *)
Definition has_coords (route : option Route) : bool :=
  match route with
  | Some r =>
      match coords r with
      | Some cs => (0 <? length cs)%nat
      | None => false
      end
  | None => false
  end.

(** [route.coords], read only under [has_coords]. *)
Definition coords_of (route : option Route) : list LatLng :=
  match route with
  | Some r => default [] (coords r)
  | None => []
  end.

(** The call the effect of [MapBounds] makes on the map, if any. *)
Inductive MapCall : Type :=
| FitBounds (points : list LatLng) (padding : nat * nat).

Definition MapBounds_coords (fastest safest : option Route) : list LatLng :=
  let coords0 : list LatLng := [] in
  let coords1 := if has_coords fastest then coords0 ++ coords_of fastest else coords0 in
  let coords2 := if has_coords safest then coords1 ++ coords_of safest else coords1 in
  coords2.

Definition MapBounds (fastest safest : option Route) : option MapCall :=
  let coords := MapBounds_coords fastest safest in
  if (0 <? length coords)%nat then Some (FitBounds coords (40, 40)%nat) else None.

(** The map after the effect ran: Leaflet's [fitBounds] is a parameter. *)
Definition run_effect {Viewport : Type}
    (fitBounds : list LatLng -> nat * nat -> Viewport -> Viewport)
    (call : option MapCall) (map : Viewport) : Viewport :=
  match call with
  | Some (FitBounds points padding) => fitBounds points padding map
  | None => map
  end.

(** The coordinate sequence a route input contributes, in the words of the
    specification: an absent route, or one without coordinates, contributes
    the empty sequence. *)
Definition route_points (route : option Route) : list LatLng :=
  match route with
  | Some {| coords := Some cs |} => cs
  | _ => []
  end.

(** ** The state of the [App] component *)

(** What [geocodeLocation] returns on success. *)
Record Location : Type := mkLocation {
  loc_lat : JSNum;
  loc_lon : JSNum;
  loc_display : string
}.

(** An entry of the [reports] cell. *)
Record Report : Type := mkReport {
  report_lat : JSNum;
  report_lon : JSNum
}.

(** The React state cells of [App] the handlers read or write. *)
Record Cells : Type := mkCells {
  city : string;
  srcQuery : string;
  dstQuery : string;
  srcCoords : option Location;
  dstCoords : option Location;
  fastest : option Route;
  safest : option Route;
  activeTab : string;
  safeZones : list SafeZone;
  reports : list Report
}.

Definition setCity (v : string) (c : Cells) : Cells :=
  mkCells v (srcQuery c) (dstQuery c) (srcCoords c) (dstCoords c)
          (fastest c) (safest c) (activeTab c) (safeZones c) (reports c).
Definition setSrcQuery (v : string) (c : Cells) : Cells :=
  mkCells (city c) v (dstQuery c) (srcCoords c) (dstCoords c)
          (fastest c) (safest c) (activeTab c) (safeZones c) (reports c).
Definition setDstQuery (v : string) (c : Cells) : Cells :=
  mkCells (city c) (srcQuery c) v (srcCoords c) (dstCoords c)
          (fastest c) (safest c) (activeTab c) (safeZones c) (reports c).
Definition setSrcCoords (v : option Location) (c : Cells) : Cells :=
  mkCells (city c) (srcQuery c) (dstQuery c) v (dstCoords c)
          (fastest c) (safest c) (activeTab c) (safeZones c) (reports c).
Definition setDstCoords (v : option Location) (c : Cells) : Cells :=
  mkCells (city c) (srcQuery c) (dstQuery c) (srcCoords c) v
          (fastest c) (safest c) (activeTab c) (safeZones c) (reports c).
Definition setFastest (v : option Route) (c : Cells) : Cells :=
  mkCells (city c) (srcQuery c) (dstQuery c) (srcCoords c) (dstCoords c)
          v (safest c) (activeTab c) (safeZones c) (reports c).
Definition setSafest (v : option Route) (c : Cells) : Cells :=
  mkCells (city c) (srcQuery c) (dstQuery c) (srcCoords c) (dstCoords c)
          (fastest c) v (activeTab c) (safeZones c) (reports c).
Definition setActiveTab (v : string) (c : Cells) : Cells :=
  mkCells (city c) (srcQuery c) (dstQuery c) (srcCoords c) (dstCoords c)
          (fastest c) (safest c) v (safeZones c) (reports c).
Definition setSafeZones (v : list SafeZone) (c : Cells) : Cells :=
  mkCells (city c) (srcQuery c) (dstQuery c) (srcCoords c) (dstCoords c)
          (fastest c) (safest c) (activeTab c) v (reports c).
Definition setReports (v : list Report) (c : Cells) : Cells :=
  mkCells (city c) (srcQuery c) (dstQuery c) (srcCoords c) (dstCoords c)
          (fastest c) (safest c) (activeTab c) (safeZones c) v.

(** The initial values given to [useState]. *)
Definition initial_cells : Cells :=
  mkCells "bengaluru" "" "" None None None None "safest" [] [].

(** ** Suspended handler invocations

    A handler runs until it awaits a remote call and is resumed by the
    reply.  What it keeps while suspended are the constants of the render
    it was created in ([city], the queries, [srcCoords], [reports]) and the
    locals computed so far.  An invocation keeps its identifier through
    all its suspensions. *)
Inductive Task : Type :=
(** [fetchRoutes] at [await geocodeLocation(srcQuery, city)] *)
| GeocodingSrc (city_ srcQuery_ dstQuery_ : string)
(** [fetchRoutes] at [await geocodeLocation(dstQuery, city)] *)
| GeocodingDst (city_ dstQuery_ : string) (src : option Location)
(** [fetchRoutes] at [await axios.get(".../route")] *)
| RequestingRoute (city_ : string) (src dst : Location)
(** [triggerPanic] at [await axios.get(".../panic")] *)
| RequestingPanic (city_ : string) (srcCoords_ : Location)
(** [reportUnsafe] at [await axios.post(".../report")] *)
| SubmittingReport (reports_ : list Report) (dstCoords_ : Location).

(** The cells, what the user was shown ([alert]) and the console, and the
    invocations in flight. *)
Record World : Type := mkWorld {
  cells : Cells;
  alerts : list string;
  console : list string;
  tasks : gmap nat Task;
  next_task : nat
}.

Definition initial_world : World := mkWorld initial_cells [] [] ∅ 0.

(** ** Remote replies *)

(** The promise of a remote call is rejected (network or service failure)
    or resolved with the body of the response. *)
Inductive Reply (A : Type) : Type :=
| Rejected
| Resolved (data : A).
Arguments Rejected {A}.
Arguments Resolved {A} data.

(** An element of the geocoder's answer. *)
Record GeoMatch : Type := mkGeoMatch {
  match_lat : string;
  match_lon : string;
  match_display_name : string
}.

(** The body of a [/route] answer: either route kind may be missing. *)
Record RoutePayload : Type := mkRoutePayload {
  payload_fastest : option Route;
  payload_safest : option Route
}.

(** The body of a [/panic] answer. *)
Record PanicPayload : Type := mkPanicPayload {
  payload_safe_zones : option (list SafeZone)
}.

Inductive Event : Type :=
(** the inputs of the header and the tabs of the panel *)
| ChangeCity (v : string)
| ChangeSrcQuery (v : string)
| ChangeDstQuery (v : string)
| ClickTab (v : string)
(** the three buttons *)
| ClickGetRoutes
| ClickSOS
| ClickReport
(** a remote call of invocation [id] settles; a missing body is [None] *)
| GeoReply (id : nat) (reply : Reply (list GeoMatch))
| RouteReply (id : nat) (reply : Reply (option RoutePayload))
| PanicReply (id : nat) (reply : Reply (option PanicPayload))
| ReportReply (id : nat) (reply : Reply unit).

(** ** Handler code: state, console and exceptions

    A piece of handler code transforms the world and either completes with
    a value or throws; what it did before throwing stays done. *)
Definition Eff (A : Type) : Type := World -> option A * World.

Definition ret {A} (a : A) : Eff A := fun w => (Some a, w).
Definition throw {A} : Eff A := fun w => (None, w).
Definition bind {A B} (m : Eff A) (k : A -> Eff B) : Eff B :=
  fun w => match m w with
           | (Some a, w') => k a w'
           | (None, w') => (None, w')
           end.
(** [try { body } catch (err) { handler }] *)
Definition try_catch {A} (body handler : Eff A) : Eff A :=
  fun w => match body w with
           | (Some a, w') => (Some a, w')
           | (None, w') => handler w'
           end.

Notation "'do' x <- m ; k" := (bind m (fun x => k))
  (at level 10, x name, m at level 100, k at level 200).
Notation "m ;; k" := (bind m (fun _ => k))
  (at level 100, k at level 200, right associativity).

Definition update (f : Cells -> Cells) : Eff unit :=
  fun w => (Some tt, mkWorld (f (cells w)) (alerts w) (console w) (tasks w) (next_task w)).
Definition alert (msg : string) : Eff unit :=
  fun w => (Some tt, mkWorld (cells w) (alerts w ++ [msg]) (console w) (tasks w) (next_task w)).
Definition console_log (msg : string) : Eff unit :=
  fun w => (Some tt, mkWorld (cells w) (alerts w) (console w ++ [msg]) (tasks w) (next_task w)).
(** suspend invocation [id] as [t] *)
Definition suspend (id : nat) (t : Task) : Eff unit :=
  fun w => (Some tt, mkWorld (cells w) (alerts w) (console w) (<[id := t]> (tasks w)) (next_task w)).
(** invocation [id] is resumed, or ends *)
Definition wake (id : nat) : Eff unit :=
  fun w => (Some tt, mkWorld (cells w) (alerts w) (console w) (delete id (tasks w)) (next_task w)).
(** a handler is invoked: a fresh identifier *)
Definition fresh : Eff nat :=
  fun w => (Some (next_task w),
            mkWorld (cells w) (alerts w) (console w) (tasks w) (S (next_task w))).
(** read a property that may be missing: reading through [undefined] or
    [null] throws a TypeError *)
Definition deref {A} (o : option A) : Eff A :=
  match o with
  | Some a => ret a
  | None => throw
  end.

(** [await] on the promise of a remote call: a rejection is thrown. *)
Definition await {A} (reply : Reply A) : Eff A :=
  match reply with
  | Rejected => throw
  | Resolved data => ret data
  end.

(** A call of an async function that makes one remote call at most: it
    returns without one, or sends [request] and resumes with the reply. *)
Inductive Async (R A : Type) : Type :=
| Returned (a : A)
| Awaiting (request : string) (resume : Reply R -> Eff A).
Arguments Returned {R A} a.
Arguments Awaiting {R A} request resume.

Section Handlers.

(** The built-in [parseFloat]. *)
Variable parseFloat : string -> JSNum.

Definition geocodeLocation (query cityName : string)
  : Async (list GeoMatch) (option Location) :=
  if negb (str_truthy (Some query)) then Returned None
  else
    Awaiting (query +:+ ", " +:+ cityName +:+ ", India")
      (fun reply =>
         try_catch
           (do data <- await reply ;
            match data with
            | m :: _ =>
                ret (Some {| loc_lat := parseFloat (match_lat m);
                             loc_lon := parseFloat (match_lon m);
                             loc_display := match_display_name m |})
            | [] => ret None
            end)
           (console_log "Geocoding error:" ;; ret None)).

(** [score || 0] on a property that may be missing. *)
Definition score_or_0 (score : option JSNum) : JSNum :=
  match score with
  | Some n => if num_truthy n then n else num_of_Z 0
  | None => num_of_Z 0
  end.

(** [{...route, safety_label: getSafetyLabel(route?.safety_score || 0)}] *)
Definition with_label (route : Route) : Route :=
  {| coords := coords route;
     distance_km := distance_km route;
     time_min := time_min route;
     safety_score := safety_score route;
     safety_label := Some (getSafetyLabel (score_or_0 (safety_score route))) |}.

(** [fetchRoutes] from the test of both locations to the route request. *)
Definition fetchRoutes_request (id : nat) (city_ : string)
    (src dst : option Location) : Eff unit :=
  match src, dst with
  | Some s, Some d =>
      update (setSrcCoords (Some s)) ;;
      update (setDstCoords (Some d)) ;;
      suspend id (RequestingRoute city_ s d)
  | _, _ => alert "Invalid source or destination"
  end.

(** [fetchRoutes] from the second geocoding call. *)
Definition fetchRoutes_dst (id : nat) (city_ dstQuery_ : string)
    (src : option Location) : Eff unit :=
  match geocodeLocation dstQuery_ city_ with
  | Returned dst => fetchRoutes_request id city_ src dst
  | Awaiting _ _ => suspend id (GeocodingDst city_ dstQuery_ src)
  end.

(** [fetchRoutes] from its first line, in the render with cells [c]. *)
Definition fetchRoutes (id : nat) (c : Cells) : Eff unit :=
  match geocodeLocation (srcQuery c) (city c) with
  | Returned src => fetchRoutes_dst id (city c) (dstQuery c) src
  | Awaiting _ _ => suspend id (GeocodingSrc (city c) (srcQuery c) (dstQuery c))
  end.

(** [fetchRoutes] resumed by the answer of the planning service. *)
Definition fetchRoutes_response (reply : Reply (option RoutePayload)) : Eff unit :=
  try_catch
    (do data <- await reply ;
     console_log "API Response:" ;;
     do payload <- deref data ;
     do fastest_ <- deref (payload_fastest payload) ;
     console_log "Fastest coords:" ;;
     do safest_ <- deref (payload_safest payload) ;
     console_log "Safest coords:" ;;
     let fastestData := with_label fastest_ in
     let safestData := with_label safest_ in
     update (setFastest (Some fastestData)) ;;
     update (setSafest (Some safestData)) ;;
     update (setSafeZones []))
    (console_log "error" ;;
     alert "Error fetching routes").

(** [triggerPanic] in the render with cells [c]. *)
Definition triggerPanic (id : nat) (c : Cells) : Eff unit :=
  match srcCoords c with
  | None => alert "Set a source first!"
  | Some sc => suspend id (RequestingPanic (city c) sc)
  end.

Definition triggerPanic_response (reply : Reply (option PanicPayload)) : Eff unit :=
  try_catch
    (do data <- await reply ;
     match data with
     | Some {| payload_safe_zones := Some zones |} => update (setSafeZones zones)
     | _ => alert "No safe locations found"
     end)
    (console_log "error" ;;
     alert "Panic API failed").

(** [reportUnsafe] in the render with cells [c]. *)
Definition reportUnsafe (id : nat) (c : Cells) : Eff unit :=
  match dstCoords c with
  | None => alert "Set a destination first!"
  | Some dc => suspend id (SubmittingReport (reports c) dc)
  end.

Definition reportUnsafe_response (reports_ : list Report) (dstCoords_ : Location)
    (reply : Reply unit) : Eff unit :=
  try_catch
    (await reply ;;
     update (setReports (reports_ ++ [mkReport (loc_lat dstCoords_) (loc_lon dstCoords_)])) ;;
     alert "Unsafe spot reported!")
    (console_log "error" ;;
     alert "Report API failed").

(** An invocation resumed by the reply of the geocoder. *)
Definition resume_geocoding (id : nat) (t : Task)
    (reply : Reply (list GeoMatch)) : option (Eff unit) :=
  match t with
  | GeocodingSrc city_ srcQuery_ dstQuery_ =>
      Some (do src <- match geocodeLocation srcQuery_ city_ with
                      | Returned src => ret src
                      | Awaiting _ resume => resume reply
                      end ;
            fetchRoutes_dst id city_ dstQuery_ src)
  | GeocodingDst city_ dstQuery_ src =>
      Some (do dst <- match geocodeLocation dstQuery_ city_ with
                      | Returned dst => ret dst
                      | Awaiting _ resume => resume reply
                      end ;
            fetchRoutes_request id city_ src dst)
  | _ => None
  end.

(** The code an event runs, when the event can happen: a reply needs the
    invocation it answers to be suspended on that very call. *)
Definition handler (w : World) (e : Event) : option (Eff unit) :=
  match e with
  | ChangeCity v => Some (update (setCity v))
  | ChangeSrcQuery v => Some (update (setSrcQuery v))
  | ChangeDstQuery v => Some (update (setDstQuery v))
  | ClickTab v => Some (update (setActiveTab v))
  | ClickGetRoutes => Some (do id <- fresh ; fetchRoutes id (cells w))
  | ClickSOS => Some (do id <- fresh ; triggerPanic id (cells w))
  | ClickReport => Some (do id <- fresh ; reportUnsafe id (cells w))
  | GeoReply id reply =>
      match tasks w !! id with
      | Some t =>
          match resume_geocoding id t reply with
          | Some k => Some (wake id ;; k)
          | None => None
          end
      | None => None
      end
  | RouteReply id reply =>
      match tasks w !! id with
      | Some (RequestingRoute _ _ _) => Some (wake id ;; fetchRoutes_response reply)
      | _ => None
      end
  | PanicReply id reply =>
      match tasks w !! id with
      | Some (RequestingPanic _ _) => Some (wake id ;; triggerPanic_response reply)
      | _ => None
      end
  | ReportReply id reply =>
      match tasks w !! id with
      | Some (SubmittingReport reports_ dstCoords_) =>
          Some (wake id ;; reportUnsafe_response reports_ dstCoords_ reply)
      | _ => None
      end
  end.

(** One event: its code runs to the next suspension. *)
Definition step (w : World) (e : Event) : option World :=
  match handler w e with
  | Some code => Some (snd (code w))
  | None => None
  end.

(** A sequence of events, in the order they happen. *)
Fixpoint run (w : World) (es : list Event) : option World :=
  match es with
  | [] => Some w
  | e :: es' =>
      match step w e with
      | Some w' => run w' es'
      | None => None
      end
  end.

End Handlers.

(** ** What the specification says, in its own words *)

(** Two characters are the same letter up to case. *)
Definition same_letter (a b : ascii) : Prop :=
  a = b
  \/ (is_upper a = true /\ nat_of_ascii b = nat_of_ascii a + 32)
  \/ (is_upper b = true /\ nat_of_ascii a = nat_of_ascii b + 32).

(** Two strings are equal up to the case of their letters. *)
Fixpoint same_text (s k : string) : Prop :=
  match s, k with
  | EmptyString, EmptyString => True
  | String a s', String b k' => same_letter a b /\ same_text s' k'
  | _, _ => False
  end.

(** [k] occurs in [t] as a substring, case-insensitively. *)
Definition occurs_nocase (k t : string) : Prop :=
  exists pre mid post, t = pre +:+ mid +:+ post /\ same_text mid k.

(** The rules on the type of a zone, in their fixed order; [number] is
    what they yield. *)
Definition type_rules (type : option string) (number : string) : Prop :=
  match type with
  | None => number = "112"
  | Some t =>
      (occurs_nocase "police" t -> number = "100")
      /\ (~ occurs_nocase "police" t -> occurs_nocase "hospital" t -> number = "108")
      /\ (~ occurs_nocase "police" t -> ~ occurs_nocase "hospital" t ->
          occurs_nocase "fire" t -> number = "101")
      /\ (~ occurs_nocase "police" t -> ~ occurs_nocase "hospital" t ->
          ~ occurs_nocase "fire" t -> number = "112")
  end.

(** [emergencyNumber] as specified: a phone that is present wins. *)
Definition emergencyNumber_spec : Prop :=
  forall zone : SafeZone,
    match zone_phone zone with
    | Some p => getEmergencyNumber zone = p
    | None => type_rules (zone_type zone) (getEmergencyNumber zone)
    end.

(** The two route objects of a usable answer of the planning service; a
    rejection and a body missing either route kind have none. *)
Definition routes_of (reply : Reply (option RoutePayload)) : option (Route * Route) :=
  match reply with
  | Resolved (Some {| payload_fastest := Some f; payload_safest := Some s |}) => Some (f, s)
  | _ => None
  end.

(** A body that misses a route kind (or is missing itself). *)
Definition malformed (data : option RoutePayload) : Prop :=
  match data with
  | Some p => payload_fastest p = None \/ payload_safest p = None
  | None => True
  end.

(** The events of the route flow. *)
Definition route_flow (e : Event) : bool :=
  match e with
  | ClickGetRoutes | GeoReply _ _ | RouteReply _ _ => true
  | _ => false
  end.

(** The events that answer invocation [id]. *)
Definition answers (id : nat) (e : Event) : Prop :=
  match e with
  | GeoReply id' _ | RouteReply id' _ | PanicReply id' _ | ReportReply id' _ => id' = id
  | _ => False
  end.

(** The cells a step of the route flow before its last never writes. *)
Definition routes_kept (c c' : Cells) : Prop :=
  fastest c' = fastest c /\ safest c' = safest c /\ safeZones c' = safeZones c.

(** A world but for its console: the cells, rendered for the user, the
    alerts shown, and the invocations in flight. *)
Definition shown (w : World) : Cells * list string * gmap nat Task * nat :=
  (cells w, alerts w, tasks w, next_task w).

Section Claims.

Variable parseFloat : string -> JSNum.

(** The location the first match of the geocoder stands for. *)
Definition location_of (m : GeoMatch) : Location :=
  {| loc_lat := parseFloat (match_lat m);
     loc_lon := parseFloat (match_lon m);
     loc_display := match_display_name m |}.

(** What a caller of [geocodeLocation] gets back when the remote call, if
    one is made, settles with [reply]. *)
Definition geocode_outcome (query cityName : string)
    (reply : Reply (list GeoMatch)) (w : World) : option Location :=
  match geocodeLocation parseFloat query cityName with
  | Returned r => r
  | Awaiting _ resume => default None (fst (resume reply w))
  end.

(** Geocoding as specified: a failure of the service can be told from an
    answer without a match. *)
Definition geocode_failures_distinct : Prop :=
  forall (query cityName : string) (w : World),
    geocode_outcome query cityName Rejected w
    <> geocode_outcome query cityName (Resolved []) w.

(** Supersession as specified: with the route requests of invocations [a]
    and [b] in flight, [a] issued first, and the answer to [a] arriving
    after the answer to [b], the routes shown are those of [b]. *)
Definition last_request_wins : Prop :=
  forall (w w' : World) (a b : nat) ca sa da cb sb db (fa sfa fb sfb : Route),
    tasks w !! a = Some (RequestingRoute ca sa da) ->
    tasks w !! b = Some (RequestingRoute cb sb db) ->
    a < b ->
    run parseFloat w
      [RouteReply b (Resolved (Some (mkRoutePayload (Some fb) (Some sfb))));
       RouteReply a (Resolved (Some (mkRoutePayload (Some fa) (Some sfa))))] = Some w' ->
    fastest (cells w') = Some (with_label fb) /\ safest (cells w') = Some (with_label sfb).

(** The panic branch as specified: an empty sequence of zones is reported
    and the overlay stays. *)
Definition empty_panic_keeps_overlay : Prop :=
  forall (w w' : World) (id : nat) c sc,
    tasks w !! id = Some (RequestingPanic c sc) ->
    step parseFloat w (PanicReply id (Resolved (Some (mkPanicPayload (Some []))))) = Some w' ->
    safeZones (cells w') = safeZones (cells w)
    /\ alerts w' = alerts w ++ ["No safe locations found"].

(** The invalidation as specified: every "get routes" action, once it ran
    to its end on the replies to its own calls, has cleared [safeZones]. *)
Definition trigger_clears_safeZones : Prop :=
  forall (w w' : World) (es : list Event),
    Forall (answers (next_task w)) es ->
    run parseFloat w (ClickGetRoutes :: es) = Some w' ->
    tasks w' !! next_task w = None ->
    safeZones (cells w') = [].

End Claims.

(** ** A session, for the examples *)

(** [parseFloat] on the literals of the session. *)
Definition parseFloat_session (s : string) : JSNum :=
  if String.eqb s "12.9784" then Fin (129784 # 10000)
  else if String.eqb s "77.6408" then Fin (776408 # 10000)
  else if String.eqb s "12.9756" then Fin (129756 # 10000)
  else if String.eqb s "77.6050" then Fin (776050 # 10000)
  else if String.eqb s "12.9352" then Fin (129352 # 10000)
  else if String.eqb s "77.6245" then Fin (776245 # 10000)
  else NaN.

Definition indiranagar : GeoMatch :=
  mkGeoMatch "12.9784" "77.6408" "Indiranagar, Bengaluru, Karnataka, India".
Definition mg_road : GeoMatch :=
  mkGeoMatch "12.9756" "77.6050" "MG Road, Bengaluru, Karnataka, India".
Definition koramangala : GeoMatch :=
  mkGeoMatch "12.9352" "77.6245" "Koramangala, Bengaluru, Karnataka, India".

Definition point (lat lon : Q) : LatLng := (Fin lat, Fin lon).

(** The answer to the request Indiranagar - MG Road. *)
Definition fastest_A : Route :=
  mkRoute (Some [point (129784 # 10000) (776408 # 10000); point (129756 # 10000) (776050 # 10000)])
          (Some (Fin (52 # 10))) (Some (Fin 18)) (Some (Fin 60)) None.
Definition safest_A : Route :=
  mkRoute (Some [point (129784 # 10000) (776408 # 10000); point (129800 # 10000) (776200 # 10000);
                 point (129756 # 10000) (776050 # 10000)])
          (Some (Fin (61 # 10))) (Some (Fin 24)) (Some (Fin 85)) None.
(** The answer to the request Indiranagar - Koramangala. *)
Definition fastest_B : Route :=
  mkRoute (Some [point (129784 # 10000) (776408 # 10000); point (129352 # 10000) (776245 # 10000)])
          (Some (Fin (67 # 10))) (Some (Fin 25)) (Some (Fin 35)) None.
Definition safest_B : Route :=
  mkRoute (Some [point (129784 # 10000) (776408 # 10000); point (129500 # 10000) (776300 # 10000);
                 point (129352 # 10000) (776245 # 10000)])
          (Some (Fin (74 # 10))) (Some (Fin 31)) (Some (Fin 78)) None.
Definition payload_A : option RoutePayload :=
  Some (mkRoutePayload (Some fastest_A) (Some safest_A)).
Definition payload_B : option RoutePayload :=
  Some (mkRoutePayload (Some fastest_B) (Some safest_B)).

Definition police_station : SafeZone :=
  mkSafeZone (Fin (129790 # 10000)) (Fin (776400 # 10000)) (Some "Police Station")
             (Some "Indiranagar Police Station") None None (Some (Fin 120)).

(** The user asks for Indiranagar - MG Road (invocation 0), then, while
    that route request is in flight, for Indiranagar - Koramangala
    (invocation 1); both route requests are then in flight. *)
Definition two_requests_in_flight : list Event :=
  [ChangeSrcQuery "Indiranagar"; ChangeDstQuery "MG Road"; ClickGetRoutes;
   GeoReply 0 (Resolved [indiranagar]); GeoReply 0 (Resolved [mg_road]);
   ChangeDstQuery "Koramangala"; ClickGetRoutes;
   GeoReply 1 (Resolved [indiranagar]); GeoReply 1 (Resolved [koramangala])].

(** The user got routes (invocation 0), pressed SOS and was shown a police
    station (invocation 1), and then pressed SOS again (invocation 2). *)
Definition overlay_shown_panic_in_flight : list Event :=
  [ChangeSrcQuery "Indiranagar"; ChangeDstQuery "MG Road"; ClickGetRoutes;
   GeoReply 0 (Resolved [indiranagar]); GeoReply 0 (Resolved [mg_road]);
   RouteReply 0 (Resolved payload_A);
   ClickSOS; PanicReply 1 (Resolved (Some (mkPanicPayload (Some [police_station]))));
   ClickSOS].

(** The user got routes, pressed SOS and was shown a police station, and
    typed a new destination. *)
Definition overlay_shown : list Event :=
  [ChangeSrcQuery "Indiranagar"; ChangeDstQuery "MG Road"; ClickGetRoutes;
   GeoReply 0 (Resolved [indiranagar]); GeoReply 0 (Resolved [mg_road]);
   RouteReply 0 (Resolved payload_A);
   ClickSOS; PanicReply 1 (Resolved (Some (mkPanicPayload (Some [police_station]))));
   ChangeDstQuery "Koramangala"].

(** As before, and "Get Routes" is pressed for the new destination
    (invocation 2), up to its route request. *)
Definition overlay_shown_request_in_flight : list Event :=
  overlay_shown ++
  [ClickGetRoutes; GeoReply 2 (Resolved [indiranagar]); GeoReply 2 (Resolved [koramangala])].

(** "Get Routes" was pressed (invocation 0); the first geocoding call is
    in flight. *)
Definition geocoding_in_flight : list Event :=
  [ChangeSrcQuery "Indiranagar"; ChangeDstQuery "MG Road"; ClickGetRoutes].

(** The world a session leaves. *)
Definition world_after (es : list Event) : World :=
  default initial_world (run parseFloat_session initial_world es).

(** ** The rest of the component: icons, popups, the route panel *)

(** The icons of the markers of safe zones; [DefaultIcon] is
    [L.Icon.Default]. *)
Inductive Icon : Type :=
| DefaultIcon
| policeIcon
| hospitalIcon
| fireIcon.

Definition getIconForZone (type : option string) : Icon :=
  if negb (str_truthy type) then DefaultIcon
  else
    let t := toLowerCase (default "" type) in
    if includes t "police" then policeIcon
    else if includes t "hospital" then hospitalIcon
    else if includes t "fire" then fireIcon
    else DefaultIcon.



(** The class of a route card, [`route-card ${route.safety_label}`]. *)
Definition card_className (route : Route) : string :=
  "route-card " +:+ default "undefined" (safety_label route).

(** The route cards the panel renders, each with its title and class:
    the panel needs a route, a card needs its tab and its route. *)
Definition route_cards (c : Cells) : list (string * string) :=
  match fastest c, safest c with
  | None, None => []
  | _, _ =>
      (match fastest c with
       | Some r => if String.eqb (activeTab c) "fastest"
                   then [("Fastest", card_className r)] else []
       | None => []
       end)
      ++
      (match safest c with
       | Some r => if String.eqb (activeTab c) "safest"
                   then [("Safest", card_className r)] else []
       | None => []
       end)
  end.

(** The start and end markers the map renders. *)
Definition route_markers (c : Cells) : list (string * LatLng) :=
  (match srcCoords c with
   | Some l => [("start", (loc_lat l, loc_lon l))]
   | None => []
   end)
  ++
  (match dstCoords c with
   | Some l => [("end", (loc_lat l, loc_lon l))]
   | None => []
   end).

(** The events of the inputs and tabs. *)
Definition input_change (e : Event) : bool :=
  match e with
  | ChangeCity _ | ChangeSrcQuery _ | ChangeDstQuery _ | ClickTab _ => true
  | _ => false
  end.

(** The replies of the remote services. *)
Definition is_reply (e : Event) : bool :=
  match e with
  | GeoReply _ _ | RouteReply _ _ | PanicReply _ _ | ReportReply _ _ => true
  | _ => false
  end.

(** A route object carries the label of its own score. *)
Definition labelled (route : option Route) : Prop :=
  match route with
  | Some r => safety_label r = Some (getSafetyLabel (score_or_0 (safety_score r)))
  | None => True
  end.

(** The entry [reportUnsafe] adds for a destination. *)
Definition report_of (l : Location) : Report := mkReport (loc_lat l) (loc_lon l).

(** What every render of a session satisfies: the two routes come
    together, each with the label of its score; the two markers come
    together; routes are not drawn without markers. *)
Definition routes_consistent (c : Cells) : Prop :=
  (fastest c = None <-> safest c = None)
  /\ labelled (fastest c) /\ labelled (safest c)
  /\ (srcCoords c = None <-> dstCoords c = None)
  /\ (fastest c <> None -> srcCoords c <> None).

(** The same, with what keeps it true: a route request in flight has
    written the markers. *)
Definition session_invariant (w : World) : Prop :=
  routes_consistent (cells w)
  /\ (forall id c s d, tasks w !! id = Some (RequestingRoute c s d) ->
                        srcCoords (cells w) <> None).

(** A world with its cells changed by [f]. *)
Definition with_cells (f : Cells -> Cells) (w : World) : World :=
  mkWorld (f (cells w)) (alerts w) (console w) (tasks w) (next_task w).

(** The setters of the inputs and tabs. *)
Definition input_setter (f : Cells -> Cells) : Prop :=
  exists v, f = setCity v \/ f = setSrcQuery v \/ f = setDstQuery v \/ f = setActiveTab v.

Section Sessions.

Variable parseFloat : string -> JSNum.

(** The worlds a session can be in: those some sequence of events leads
    to from the initial render. *)
Definition reachable (w : World) : Prop :=
  exists es, run parseFloat initial_world es = Some w.

End Sessions.

(** ** [ReportPage.jsx] *)

Record Category : Type := mkCategory {
  cat_id : string;
  cat_label : string;
  cat_desc : string
}.

(** The four categories (their icons left out). *)
Definition categories : list Category :=
  [mkCategory "lighting" "Poor Lighting" "Broken streetlights or dark areas";
   mkCategory "harassment" "Harassment" "Inappropriate behavior or catcalling";
   mkCategory "unsafe" "Unsafe Area" "General safety concerns or suspicious activity";
   mkCategory "infra" "Infrastructure" "Broken roads, missing signs, or barriers"].

(** [`category-card ${selectedType === c.id ? "active" : ""}`] *)
Definition category_className (selectedType : string) (c : Category) : string :=
  "category-card " +:+ (if String.eqb selectedType (cat_id c) then "active" else "").

(** The classes of the cards [categories.map] renders. *)
Definition category_cards (selectedType : string) : list string :=
  map (category_className selectedType) categories.

(** * Properties *)

(** ** Numbers and labels *)

Lemma js_ge_of_Z (a b : Z) : js_ge (num_of_Z a) (num_of_Z b) = (b <=? a)%Z.
Proof.
  unfold js_ge, num_of_Z, Qle_bool; simpl.
  now rewrite !Z.mul_1_r.
Qed.

Lemma Qle_bool_false (x y : Q) : Qle_bool x y = false <-> (y < x)%Q.
Proof.
  rewrite <- not_true_iff_false, Qle_bool_iff.
  split; [apply Qnot_le_lt | apply Qlt_not_le].
Qed.

Lemma getSafetyLabel_of_Z (s : Z) :
  getSafetyLabel (num_of_Z s) =
  if (75 <=? s)%Z then "safe" else if (40 <=? s)%Z then "moderate" else "unsafe".
Proof. unfold getSafetyLabel. now rewrite !js_ge_of_Z. Qed.

(** C5. On every integer score the label is [safe] exactly from 75 up,
    [moderate] exactly from 40 to 74 and [unsafe] exactly below 40; the
    boundary values 75, 74, 40 and 39 fall as the specification lists
    them. *)
Theorem getSafetyLabel_thresholds (s : Z) :
  (getSafetyLabel (num_of_Z s) = "safe" <-> (75 <= s)%Z)
  /\ (getSafetyLabel (num_of_Z s) = "moderate" <-> (40 <= s < 75)%Z)
  /\ (getSafetyLabel (num_of_Z s) = "unsafe" <-> (s < 40)%Z)
  /\ getSafetyLabel (num_of_Z 75) = "safe"
  /\ getSafetyLabel (num_of_Z 74) = "moderate"
  /\ getSafetyLabel (num_of_Z 40) = "moderate"
  /\ getSafetyLabel (num_of_Z 39) = "unsafe".
Proof.
  rewrite getSafetyLabel_of_Z.
  destruct (Z.leb_spec 75 s) as [H75|H75]; [|destruct (Z.leb_spec 40 s) as [H40|H40]];
    repeat split; try reflexivity; try (intros; lia); try (intros; discriminate).
Qed.

(** C10. [getSafetyLabel] gives every number (NaN and the infinities
    included) exactly one of the three labels; whatever exceeds 100 is
    [safe] and whatever is negative is [unsafe]. *)
Theorem getSafetyLabel_total (score : JSNum) :
  (exists! l : string, In l ["safe"; "moderate"; "unsafe"] /\ getSafetyLabel score = l)
  /\ (js_gt score (num_of_Z 100) = true -> getSafetyLabel score = "safe")
  /\ (js_lt score (num_of_Z 0) = true -> getSafetyLabel score = "unsafe").
Proof.
  split; [|split].
  - exists (getSafetyLabel score). split.
    + split; [|reflexivity]. unfold getSafetyLabel.
      destruct (js_ge score (num_of_Z 75)); [simpl; tauto|].
      destruct (js_ge score (num_of_Z 40)); simpl; tauto.
    + intros l [_ H]. exact H.
  - unfold getSafetyLabel.
    destruct score as [|[]|q]; simpl; try discriminate; try reflexivity.
    intros H. apply negb_true_iff, Qle_bool_false in H.
    assert (Qle_bool (inject_Z 75) q = true) as ->; [|reflexivity].
    apply Qle_bool_iff. change (75 <= q)%Q. change (100 < q)%Q in H. lra.
  - unfold getSafetyLabel, js_lt.
    destruct score as [|[]|q]; simpl; try discriminate; try reflexivity.
    intros H. apply negb_true_iff, Qle_bool_false in H.
    assert (Qle_bool (inject_Z 75) q = false) as ->.
    { apply Qle_bool_false. change (q < 75)%Q. change (q < 0)%Q in H. lra. }
    assert (Qle_bool (inject_Z 40) q = false) as ->; [|reflexivity].
    apply Qle_bool_false. change (q < 40)%Q. change (q < 0)%Q in H. lra.
Qed.

(** The labels at a number above the range, a negative one and NaN. *)
Lemma getSafetyLabel_total_witness :
  getSafetyLabel (Fin (2505 # 10)) = "safe"
  /\ getSafetyLabel (Fin (- 5 # 10)) = "unsafe"
  /\ getSafetyLabel NaN = "unsafe".
Proof.
  split; [|split].
  - apply (proj1 (proj2 (getSafetyLabel_total (Fin (2505 # 10))))). reflexivity.
  - apply (proj2 (proj2 (getSafetyLabel_total (Fin (- 5 # 10))))). reflexivity.
  - reflexivity.
Defined.

(** ** Strings *)

Lemma startsWith_spec (k s : string) :
  startsWith s k = true <-> exists post, s = k +:+ post.
Proof.
  revert s. induction k as [|a k IH]; intros s; simpl.
  - split; [intros _; now exists s | reflexivity].
  - destruct s as [|b s].
    + split; [discriminate | intros [post H]; discriminate].
    + rewrite andb_true_iff, Ascii.eqb_eq, IH. split.
      * intros [-> [post ->]]. now exists post.
      * intros [post H]. injection H as -> ->. eauto.
Qed.

Lemma includes_spec (s k : string) :
  includes s k = true <-> exists pre post, s = pre +:+ k +:+ post.
Proof.
  induction s as [|b s IH].
  - simpl. rewrite orb_false_r, startsWith_spec. split.
    + intros [post H]. now exists "", post.
    + intros [[|c pre] [post H]]; [now exists post | discriminate].
  - cbn [includes]. rewrite orb_true_iff, IH, startsWith_spec. split.
    + intros [[post H] | (pre & post & H)].
      * now exists "", post.
      * exists (String b pre), post. simpl. now rewrite H.
    + intros ([|c pre] & post & H).
      * left. now exists post.
      * right. injection H as _ H. now exists pre, post.
Qed.

Lemma toLowerCase_app (s t : string) :
  toLowerCase (s +:+ t) = toLowerCase s +:+ toLowerCase t.
Proof. induction s as [|a s IH]; simpl; [reflexivity | now rewrite IH]. Qed.

Lemma toLowerCase_split (t x y : string) :
  toLowerCase t = x +:+ y ->
  exists t1 t2, t = t1 +:+ t2 /\ toLowerCase t1 = x /\ toLowerCase t2 = y.
Proof.
  revert t. induction x as [|a x IH]; intros t H; simpl in H.
  - now exists "", t.
  - destruct t as [|b t]; [discriminate|]. simpl in H. injection H as Ha H.
    destruct (IH _ H) as (t1 & t2 & -> & H1 & H2).
    exists (String b t1), t2. simpl. now rewrite Ha, H1.
Qed.

Lemma is_upper_bounds (a : ascii) :
  is_upper a = true <-> 65 <= nat_of_ascii a <= 90.
Proof.
  unfold is_upper. rewrite andb_true_iff, !Nat.leb_le. tauto.
Qed.

Lemma lower_ascii_code (a : ascii) :
  nat_of_ascii (lower_ascii a) =
  if is_upper a then nat_of_ascii a + 32 else nat_of_ascii a.
Proof.
  unfold lower_ascii. destruct (is_upper a) eqn:E; [|reflexivity].
  apply is_upper_bounds in E. apply nat_ascii_embedding. lia.
Qed.

Lemma ascii_code_inj (a b : ascii) : nat_of_ascii a = nat_of_ascii b -> a = b.
Proof.
  intros H. rewrite <- (ascii_nat_embedding a), <- (ascii_nat_embedding b).
  now rewrite H.
Qed.

Lemma same_letter_lower (a b : ascii) :
  same_letter a b <-> lower_ascii a = lower_ascii b.
Proof.
  unfold same_letter. split.
  - intros [-> | [[Ha Hb] | [Hb Ha]]]; [reflexivity | |];
      apply ascii_code_inj; rewrite !lower_ascii_code.
    + rewrite Ha. apply is_upper_bounds in Ha.
      destruct (is_upper b) eqn:E; [apply is_upper_bounds in E; lia | lia].
    + rewrite Hb. apply is_upper_bounds in Hb.
      destruct (is_upper a) eqn:E; [apply is_upper_bounds in E; lia | lia].
  - intros H. apply (f_equal nat_of_ascii) in H. rewrite !lower_ascii_code in H.
    destruct (is_upper a) eqn:Ea, (is_upper b) eqn:Eb.
    + left. apply ascii_code_inj. lia.
    + right; left. split; [reflexivity | lia].
    + right; right. split; [reflexivity | lia].
    + left. now apply ascii_code_inj.
Qed.

Lemma same_text_lower (s k : string) :
  same_text s k <-> toLowerCase s = toLowerCase k.
Proof.
  revert k. induction s as [|a s IH]; intros [|b k]; simpl; try (split; [tauto | discriminate]).
  - tauto.
  - rewrite same_letter_lower, IH. split.
    + now intros [-> ->].
    + intros H. now injection H.
Qed.

(** What the code tests, [toLowerCase] then [includes], is a
    case-insensitive search for a keyword written in lower case. *)
Lemma includes_toLowerCase (k t : string) :
  toLowerCase k = k ->
  includes (toLowerCase t) k = true <-> occurs_nocase k t.
Proof.
  intros Hk. rewrite includes_spec. unfold occurs_nocase. split.
  - intros (pre & post & H).
    apply toLowerCase_split in H as (t1 & t2 & -> & H1 & H2).
    apply toLowerCase_split in H2 as (t3 & t4 & -> & H3 & H4).
    exists t1, t3, t4. split; [reflexivity|].
    apply same_text_lower. now rewrite Hk.
  - intros (pre & mid & post & -> & H).
    apply same_text_lower in H. rewrite Hk in H.
    exists (toLowerCase pre), (toLowerCase post).
    now rewrite !toLowerCase_app, H.
Qed.

(** ** Emergency numbers *)

(** The number a type yields, by the tests of the code. *)
Lemma getEmergencyNumber_by_type (zone : SafeZone) :
  str_truthy (zone_phone zone) = false ->
  getEmergencyNumber zone =
  match zone_type zone with
  | None => "112"
  | Some t =>
      if includes (toLowerCase t) "police" then "100"
      else if includes (toLowerCase t) "hospital" then "108"
      else if includes (toLowerCase t) "fire" then "101"
      else "112"
  end.
Proof.
  intros Hp. unfold getEmergencyNumber. rewrite Hp.
  destruct (zone_type zone) as [[|c t]|]; reflexivity.
Qed.

Lemma type_rules_hold (zone : SafeZone) :
  str_truthy (zone_phone zone) = false ->
  type_rules (zone_type zone) (getEmergencyNumber zone).
Proof.
  intros Hp. rewrite (getEmergencyNumber_by_type _ Hp).
  destruct (zone_type zone) as [t|]; simpl; [|reflexivity].
  pose proof (includes_toLowerCase "police" t eq_refl) as Hpol.
  pose proof (includes_toLowerCase "hospital" t eq_refl) as Hhos.
  pose proof (includes_toLowerCase "fire" t eq_refl) as Hfir.
  destruct (includes (toLowerCase t) "police");
    [|destruct (includes (toLowerCase t) "hospital");
      [|destruct (includes (toLowerCase t) "fire")]];
    repeat split; intros; try reflexivity;
    repeat match goal with
           | H : ~ occurs_nocase ?k t, I : true = true <-> occurs_nocase ?k t |- _ =>
               exfalso; apply H, I; reflexivity
           | H : occurs_nocase ?k t, I : false = true <-> occurs_nocase ?k t |- _ =>
               apply I in H; discriminate
           end.
Qed.

(** C6, as the code has it. The rules apply in their fixed order and the
    first match wins: a phone that is present and not the empty string is
    returned verbatim, whatever the type; otherwise an absent type yields
    "112", and a type yields "100", "108" or "101" for the first of
    "police", "hospital", "fire" that occurs in it case-insensitively,
    and "112" when none does. *)
Theorem getEmergencyNumber_rules (zone : SafeZone) :
  match zone_phone zone with
  | Some p =>
      if String.eqb p "" then type_rules (zone_type zone) (getEmergencyNumber zone)
      else getEmergencyNumber zone = p
  | None => type_rules (zone_type zone) (getEmergencyNumber zone)
  end.
Proof.
  destruct (zone_phone zone) as [p|] eqn:Hp.
  - destruct (String.eqb p "") eqn:E.
    + apply type_rules_hold. rewrite Hp. simpl. now rewrite E.
    + unfold getEmergencyNumber. rewrite Hp. simpl. now rewrite E.
  - apply type_rules_hold. now rewrite Hp.
Qed.

(** C6, as specified, fails on a zone whose phone is present but empty:
    for [{phone: "", type: "police"}] the test [if (zone.phone)] is false
    and the type decides, so "100" is returned and not the phone. *)
Lemma empty_phone_falls_through : ~ emergencyNumber_spec.
Proof.
  intros H.
  specialize (H (mkSafeZone (Fin 0) (Fin 0) (Some "police") None None (Some "") None)).
  discriminate H.
Qed.

(** The cases the specification lists for [emergencyNumber]. *)
Example getEmergencyNumber_listed :
  getEmergencyNumber (mkSafeZone (Fin 0) (Fin 0) (Some "police") None None (Some "555") None) = "555"
  /\ getEmergencyNumber (mkSafeZone (Fin 0) (Fin 0) (Some "Police Station") None None None None) = "100"
  /\ getEmergencyNumber (mkSafeZone (Fin 0) (Fin 0) None None None None None) = "112"
  /\ getEmergencyNumber (mkSafeZone (Fin 0) (Fin 0) (Some "Community Center") None None None None) = "112"
  /\ getEmergencyNumber (mkSafeZone (Fin 0) (Fin 0) (Some "FIRE & Hospital") None None None None) = "108".
Proof. repeat split. Qed.

(** ** Auto-fit bounds *)

Lemma has_coords_points (route : option Route) :
  (if has_coords route then coords_of route else []) = route_points route.
Proof.
  destruct route as [[[[|p cs]|] ? ? ? ?]|]; reflexivity.
Qed.

Lemma MapBounds_coords_points (fastest safest : option Route) :
  MapBounds_coords fastest safest = route_points fastest ++ route_points safest.
Proof.
  unfold MapBounds_coords.
  rewrite <- (has_coords_points fastest), <- (has_coords_points safest).
  destruct (has_coords fastest), (has_coords safest); simpl;
    rewrite ?app_nil_r; reflexivity.
Qed.

(** C7. The effect of [MapBounds] makes no call on the map, which then
    stays as it is, exactly when both routes are absent or both coordinate
    sequences are empty (an absent route, or one without coordinates,
    having the empty sequence); otherwise it calls [fitBounds], with the
    padding [40, 40], on the coordinates of [fastest] followed by those of
    [safest]. *)
Theorem MapBounds_fits_routes {Viewport : Type}
    (fitBounds : list LatLng -> nat * nat -> Viewport -> Viewport)
    (fastest safest : option Route) (map : Viewport) :
  let points := route_points fastest ++ route_points safest in
  (MapBounds fastest safest = None <->
     (fastest = None /\ safest = None)
     \/ (route_points fastest = [] /\ route_points safest = []))
  /\ MapBounds fastest safest =
     match points with
     | [] => None
     | _ :: _ => Some (FitBounds points (40, 40))
     end
  /\ run_effect fitBounds (MapBounds fastest safest) map =
     match points with
     | [] => map
     | _ :: _ => fitBounds points (40, 40) map
     end.
Proof.
  intros points. unfold MapBounds. rewrite MapBounds_coords_points. fold points.
  assert (points = [] <-> route_points fastest = [] /\ route_points safest = []) as Hnil.
  { unfold points. split.
    - intros H. now apply app_eq_nil in H.
    - now intros [-> ->]. }
  destruct points as [|p ps]; simpl.
  - repeat split. right. now apply Hnil.
  - repeat split.
    + discriminate.
    + intros [[-> ->] | H]; [|apply Hnil in H; discriminate].
      destruct Hnil as [_ Hnil]. specialize (Hnil (conj eq_refl eq_refl)). discriminate.
Qed.

(** The cases the specification lists for the bounds. *)
Example MapBounds_listed :
  MapBounds None None = None
  /\ MapBounds (Some fastest_A) None = Some (FitBounds (route_points (Some fastest_A)) (40, 40))
  /\ MapBounds None (Some (mkRoute (Some []) None None None None)) = None
  /\ MapBounds (Some fastest_A) (Some safest_A) =
     Some (FitBounds (route_points (Some fastest_A) ++ route_points (Some safest_A)) (40, 40)).
Proof. repeat split. Qed.

(** ** The handlers *)

Section Properties.

Variable parseFloat : string -> JSNum.

Lemma geocodeLocation_awaits (query cityName : string) :
  query <> "" ->
  exists request resume,
    geocodeLocation parseFloat query cityName = Awaiting request resume
    /\ (forall w, resume Rejected w
                  = (Some None, mkWorld (cells w) (alerts w) (console w ++ ["Geocoding error:"])
                                        (tasks w) (next_task w)))
    /\ (forall w, resume (Resolved []) w = (Some None, w))
    /\ (forall m ms w, resume (Resolved (m :: ms)) w
                       = (Some (Some (mkLocation (parseFloat (match_lat m))
                                                 (parseFloat (match_lon m))
                                                 (match_display_name m))), w)).
Proof.
  intros Hq. unfold geocodeLocation. simpl.
  apply String.eqb_neq in Hq. rewrite Hq. simpl.
  eexists _, _. split; [reflexivity|]. repeat split.
Qed.

Lemma geocodeLocation_empty (cityName : string) :
  geocodeLocation parseFloat "" cityName = Returned None.
Proof. reflexivity. Qed.

(** A route answer that is of no use is handled as a failure: nothing is
    written, the user is told. *)
Lemma fetchRoutes_response_failure (reply : Reply (option RoutePayload)) (w : World) :
  routes_of reply = None ->
  exists log,
    fetchRoutes_response reply w
    = (Some tt, mkWorld (cells w) (alerts w ++ ["Error fetching routes"])
                        (console w ++ log) (tasks w) (next_task w)).
Proof.
  intros H. destruct reply as [|[[[f|] [s|]]|]]; try discriminate H;
    unfold fetchRoutes_response, try_catch, bind, await, deref, console_log, alert, throw, ret;
    simpl; rewrite <- ?app_assoc; eexists; reflexivity.
Qed.

(** A usable route answer writes both routes, labelled, and empties the
    overlay of safe zones. *)
Lemma fetchRoutes_response_success (f s : Route) (w : World) :
  fetchRoutes_response (Resolved (Some (mkRoutePayload (Some f) (Some s)))) w
  = (Some tt,
     mkWorld (setSafeZones [] (setSafest (Some (with_label s))
                (setFastest (Some (with_label f)) (cells w))))
             (alerts w)
             (console w ++ ["API Response:"; "Fastest coords:"; "Safest coords:"])
             (tasks w) (next_task w)).
Proof.
  unfold fetchRoutes_response, try_catch, bind, await, deref, console_log, update, ret.
  simpl. now rewrite <- !app_assoc.
Qed.

Lemma step_RouteReply (w : World) (id : nat) c s d reply :
  tasks w !! id = Some (RequestingRoute c s d) ->
  step parseFloat w (RouteReply id reply)
  = Some (snd (fetchRoutes_response reply
                 (mkWorld (cells w) (alerts w) (console w) (delete id (tasks w)) (next_task w)))).
Proof.
  intros H. unfold step, handler. rewrite H. reflexivity.
Qed.

(** C2. When the answer to a route request in flight has a body that
    misses the fastest or the safest route (or has no body), the call is
    handled as a failed one: the user is told "Error fetching routes" and
    no cell is written, so [fastest] and [safest] keep their values: none
    of the two is written alone. *)
Theorem malformed_payload_all_or_nothing (w : World) (id : nat) c s d
    (data : option RoutePayload) :
  tasks w !! id = Some (RequestingRoute c s d) ->
  malformed data ->
  exists w',
    step parseFloat w (RouteReply id (Resolved data)) = Some w'
    /\ fastest (cells w') = fastest (cells w)
    /\ safest (cells w') = safest (cells w)
    /\ cells w' = cells w
    /\ alerts w' = alerts w ++ ["Error fetching routes"].
Proof.
  intros Ht Hm. rewrite (step_RouteReply _ _ _ _ _ _ Ht).
  assert (routes_of (Resolved data) = None) as Hr.
  { destruct data as [[[f|] [s'|]]|]; simpl in *; try reflexivity.
    destruct Hm; discriminate. }
  destruct (fetchRoutes_response_failure _
              (mkWorld (cells w) (alerts w) (console w) (delete id (tasks w)) (next_task w)) Hr)
    as [log ->].
  eexists. split; [reflexivity|]. simpl. auto.
Qed.

(** *** What the route flow leaves alone *)

Lemma geocodeLocation_resume (query cityName request : string) resume reply (w : World) :
  geocodeLocation parseFloat query cityName = Awaiting request resume ->
  exists r log,
    resume reply w
    = (Some r, mkWorld (cells w) (alerts w) (console w ++ log) (tasks w) (next_task w)).
Proof.
  unfold geocodeLocation. destruct (negb (str_truthy (Some query))); [discriminate|].
  intros H. injection H as _ <-.
  destruct reply as [|[|m ms]]; simpl.
  - now exists None, ["Geocoding error:"].
  - exists None, []. rewrite app_nil_r. now destruct w.
  - eexists _, []. rewrite app_nil_r. now destruct w.
Qed.

Lemma fetchRoutes_request_kept id c src dst (w : World) :
  routes_kept (cells w) (cells (snd (fetchRoutes_request id c src dst w))).
Proof. destruct src, dst; repeat split. Qed.

Lemma fetchRoutes_dst_kept id c dq src (w : World) :
  routes_kept (cells w) (cells (snd (fetchRoutes_dst parseFloat id c dq src w))).
Proof.
  unfold fetchRoutes_dst. destruct (geocodeLocation parseFloat dq c).
  - apply fetchRoutes_request_kept.
  - repeat split.
Qed.

Lemma fetchRoutes_kept id c (w : World) :
  routes_kept (cells w) (cells (snd (fetchRoutes parseFloat id c w))).
Proof.
  unfold fetchRoutes. destruct (geocodeLocation parseFloat (srcQuery c) (city c)).
  - apply fetchRoutes_dst_kept.
  - repeat split.
Qed.

Lemma resume_geocoding_kept id t reply code (w : World) :
  resume_geocoding parseFloat id t reply = Some code ->
  routes_kept (cells w) (cells (snd (code w))).
Proof.
  destruct t as [c sq dq|c dq src| | |]; simpl; try discriminate; intros H; injection H as <-.
  - destruct (geocodeLocation parseFloat sq c) as [r|request resume] eqn:E.
    + apply (fetchRoutes_dst_kept id c dq r w).
    + destruct (geocodeLocation_resume _ _ _ _ reply w E) as (r & log & Hr).
      unfold bind. rewrite Hr.
      apply (fetchRoutes_dst_kept id c dq r
               (mkWorld (cells w) (alerts w) (console w ++ log) (tasks w) (next_task w))).
  - destruct (geocodeLocation parseFloat dq c) as [r|request resume] eqn:E.
    + apply (fetchRoutes_request_kept id c src r w).
    + destruct (geocodeLocation_resume _ _ _ _ reply w E) as (r & log & Hr).
      unfold bind. rewrite Hr.
      apply (fetchRoutes_request_kept id c src r
               (mkWorld (cells w) (alerts w) (console w ++ log) (tasks w) (next_task w))).
Qed.

(** Every step of the route flow but a usable route answer keeps
    [fastest], [safest] and [safeZones]. *)
Lemma route_flow_kept (w w' : World) (e : Event) :
  route_flow e = true ->
  (forall id reply, e = RouteReply id reply -> routes_of reply = None) ->
  step parseFloat w e = Some w' ->
  routes_kept (cells w) (cells w').
Proof.
  intros Hflow Hfail. unfold step, handler.
  destruct e as [| | | | | | |id reply|id reply| |]; try discriminate Hflow.
  - intros H. injection H as <-.
    apply (fetchRoutes_kept (next_task w) (cells w)
             (mkWorld (cells w) (alerts w) (console w) (tasks w) (S (next_task w)))).
  - destruct (tasks w !! id) as [t|]; [|discriminate].
    destruct (resume_geocoding parseFloat id t reply) as [code|] eqn:E; [|discriminate].
    intros H. injection H as <-.
    apply (resume_geocoding_kept _ _ _ _
             (mkWorld (cells w) (alerts w) (console w) (delete id (tasks w)) (next_task w)) E).
  - destruct (tasks w !! id) as [[]|]; try discriminate.
    intros H. injection H as <-.
    destruct (fetchRoutes_response_failure reply
                (mkWorld (cells w) (alerts w) (console w) (delete id (tasks w)) (next_task w))
                (Hfail _ _ eq_refl)) as [log Hr].
    unfold bind, wake. rewrite Hr. repeat split.
Qed.

(** C4, as the code has it. Within the route flow, [safeZones] is emptied
    by the answer to a route request that carries both routes, in the
    update that writes them, and by nothing else: pressing "Get Routes",
    the replies of the geocoder and a failed route request leave it as it
    was. *)
Theorem safeZones_cleared_on_success (w w' : World) (e : Event) :
  route_flow e = true ->
  step parseFloat w e = Some w' ->
  safeZones (cells w') =
  match e with
  | RouteReply _ reply =>
      match routes_of reply with
      | Some _ => []
      | None => safeZones (cells w)
      end
  | _ => safeZones (cells w)
  end.
Proof.
  intros Hflow Hstep.
  assert ((forall id reply, e = RouteReply id reply -> routes_of reply = None) ->
          safeZones (cells w') = safeZones (cells w)) as Hkept.
  { intros Hfail. apply (route_flow_kept w w' e Hflow Hfail Hstep). }
  destruct e as [| | | | | | |id reply|id reply| |]; try discriminate Hflow;
    try (apply Hkept; intros ? ? [=]).
  destruct (routes_of reply) as [[f s]|] eqn:E.
  - clear Hkept. unfold step, handler in Hstep.
    destruct (tasks w !! id) as [[]|]; try discriminate.
    injection Hstep as <-.
    destruct reply as [|[[[f'|] [s'|]]|]]; try discriminate E.
    unfold bind, wake. rewrite fetchRoutes_response_success. reflexivity.
  - apply Hkept. intros ? ? [= <- <-]. exact E.
Qed.

(** *** Replies, one by one *)

Lemma step_ClickGetRoutes (w : World) :
  srcQuery (cells w) <> "" ->
  step parseFloat w ClickGetRoutes
  = Some (mkWorld (cells w) (alerts w) (console w)
            (<[next_task w := GeocodingSrc (city (cells w)) (srcQuery (cells w))
                                (dstQuery (cells w))]> (tasks w))
            (S (next_task w))).
Proof.
  intros Hq. unfold step, handler, bind, fresh, fetchRoutes. simpl.
  destruct (geocodeLocation_awaits (srcQuery (cells w)) (city (cells w)) Hq)
    as (request & resume & -> & _).
  reflexivity.
Qed.

Lemma step_GeoReply_src (w : World) (id : nat) c sq dq m ms :
  tasks w !! id = Some (GeocodingSrc c sq dq) ->
  sq <> "" -> dq <> "" ->
  step parseFloat w (GeoReply id (Resolved (m :: ms)))
  = Some (mkWorld (cells w) (alerts w) (console w)
            (<[id := GeocodingDst c dq (Some (location_of parseFloat m))]> (delete id (tasks w)))
            (next_task w)).
Proof.
  intros Ht Hsq Hdq. unfold step, handler. rewrite Ht. simpl.
  destruct (geocodeLocation_awaits sq c Hsq) as (request & resume & -> & _ & _ & Hm).
  unfold bind, wake. rewrite Hm. unfold fetchRoutes_dst.
  destruct (geocodeLocation_awaits dq c Hdq) as (request' & resume' & -> & _).
  reflexivity.
Qed.

Lemma step_GeoReply_dst (w : World) (id : nat) c dq s m ms :
  tasks w !! id = Some (GeocodingDst c dq (Some s)) ->
  dq <> "" ->
  step parseFloat w (GeoReply id (Resolved (m :: ms)))
  = Some (mkWorld (setDstCoords (Some (location_of parseFloat m))
                     (setSrcCoords (Some s) (cells w)))
            (alerts w) (console w)
            (<[id := RequestingRoute c s (location_of parseFloat m)]> (delete id (tasks w)))
            (next_task w)).
Proof.
  intros Ht Hdq. unfold step, handler. rewrite Ht. simpl.
  destruct (geocodeLocation_awaits dq c Hdq) as (request & resume & -> & _ & _ & Hm).
  unfold bind, wake. rewrite Hm. reflexivity.
Qed.

(** C9. In a "get routes" action whose two geocoding calls find a match
    and whose route request then fails (it is rejected, or its body misses
    a route), [srcCoords] and [dstCoords] hold the newly geocoded
    locations: they are written before the route request is issued, and
    the failure writes nothing, so [fastest] and [safest] are the ones from
    before the action. *)
Theorem coords_overwritten_when_route_fails (w : World) m1 ms1 m2 ms2
    (reply : Reply (option RoutePayload)) :
  srcQuery (cells w) <> "" ->
  dstQuery (cells w) <> "" ->
  routes_of reply = None ->
  let id := next_task w in
  let src := location_of parseFloat m1 in
  let dst := location_of parseFloat m2 in
  exists w3 w4,
    run parseFloat w [ClickGetRoutes; GeoReply id (Resolved (m1 :: ms1));
                      GeoReply id (Resolved (m2 :: ms2))] = Some w3
    /\ tasks w3 !! id = Some (RequestingRoute (city (cells w)) src dst)
    /\ srcCoords (cells w3) = Some src /\ dstCoords (cells w3) = Some dst
    /\ step parseFloat w3 (RouteReply id reply) = Some w4
    /\ srcCoords (cells w4) = Some src /\ dstCoords (cells w4) = Some dst
    /\ fastest (cells w4) = fastest (cells w) /\ safest (cells w4) = safest (cells w)
    /\ cells w4 = setDstCoords (Some dst) (setSrcCoords (Some src) (cells w))
    /\ alerts w4 = alerts w ++ ["Error fetching routes"].
Proof.
  intros Hsq Hdq Hfail id src dst. cbn [run].
  rewrite (step_ClickGetRoutes w Hsq).
  erewrite step_GeoReply_src; [|apply lookup_insert_eq|assumption|assumption].
  erewrite step_GeoReply_dst; [|apply lookup_insert_eq|assumption].
  cbn [cells alerts console tasks next_task].
  match goal with
  | |- exists w3 w4, Some ?W = Some w3 /\ _ =>
      destruct (fetchRoutes_response_failure reply
                  (mkWorld (cells W) (alerts W) (console W) (delete id (tasks W))
                           (next_task W)) Hfail) as [log Hlog];
      exists W
  end.
  eexists. split; [reflexivity|].
  split; [apply lookup_insert_eq|].
  split; [reflexivity|]. split; [reflexivity|].
  erewrite step_RouteReply; [|apply lookup_insert_eq].
  rewrite Hlog. split; [reflexivity|]. repeat split.
Qed.

(** C1, as the code has it. A usable answer to a route request in flight
    writes its routes when it arrives, whichever request was issued last:
    with two requests in flight, once the answer to [b] and then the
    answer to [a] have arrived, the routes shown are those of [a], the
    last to arrive. *)
Theorem latest_response_wins (w : World) (a b : nat) ca sa da cb sb db
    (fa sfa fb sfb : Route) :
  tasks w !! a = Some (RequestingRoute ca sa da) ->
  tasks w !! b = Some (RequestingRoute cb sb db) ->
  a <> b ->
  exists w1 w2,
    step parseFloat w (RouteReply b (Resolved (Some (mkRoutePayload (Some fb) (Some sfb)))))
    = Some w1
    /\ fastest (cells w1) = Some (with_label fb) /\ safest (cells w1) = Some (with_label sfb)
    /\ step parseFloat w1 (RouteReply a (Resolved (Some (mkRoutePayload (Some fa) (Some sfa)))))
       = Some w2
    /\ fastest (cells w2) = Some (with_label fa) /\ safest (cells w2) = Some (with_label sfa)
    /\ run parseFloat w
         [RouteReply b (Resolved (Some (mkRoutePayload (Some fb) (Some sfb))));
          RouteReply a (Resolved (Some (mkRoutePayload (Some fa) (Some sfa))))] = Some w2.
Proof.
  intros Ha Hb Hab. cbn [run].
  rewrite (step_RouteReply _ _ _ _ _ _ Hb), fetchRoutes_response_success. cbn [snd].
  eexists. eexists. split; [reflexivity|].
  split; [reflexivity|]. split; [reflexivity|].
  erewrite step_RouteReply;
    [|cbn [tasks]; rewrite lookup_delete_ne by congruence; exact Ha].
  rewrite fetchRoutes_response_success. cbn [snd].
  split; [reflexivity|]. repeat split.
Qed.

(** C3, as the code has it. The answer to a panic request in flight that
    carries a sequence of zones, empty or not, replaces [safeZones] with
    it (an empty sequence empties the overlay); an answer without one (no
    body, or no [safe_zones]) surfaces "No safe locations found" and
    leaves [safeZones] as it was. *)
Theorem panic_answer_replaces_or_reports (w : World) (id : nat) c sc
    (data : option PanicPayload) :
  tasks w !! id = Some (RequestingPanic c sc) ->
  exists w',
    step parseFloat w (PanicReply id (Resolved data)) = Some w'
    /\ match data with
       | Some {| payload_safe_zones := Some zones |} =>
           safeZones (cells w') = zones
       | _ =>
           safeZones (cells w') = safeZones (cells w)
           /\ alerts w' = alerts w ++ ["No safe locations found"]
       end.
Proof.
  intros Ht. unfold step, handler. rewrite Ht.
  eexists. split; [reflexivity|].
  destruct data as [[[zones|]]|]; [reflexivity | split; reflexivity ..].
Qed.

(** *** The geocoder's failures *)

Lemma geocodeLocation_resume_failures (query cityName request : string) resume (w : World) :
  geocodeLocation parseFloat query cityName = Awaiting request resume ->
  resume Rejected w
  = (Some None, mkWorld (cells w) (alerts w) (console w ++ ["Geocoding error:"])
                        (tasks w) (next_task w))
  /\ resume (Resolved []) w = (Some None, w).
Proof.
  unfold geocodeLocation. destruct (negb (str_truthy (Some query))); [discriminate|].
  intros H. injection H as _ <-. split; reflexivity.
Qed.

Lemma fetchRoutes_request_shown id c src dst (w1 w2 : World) :
  shown w1 = shown w2 ->
  shown (snd (fetchRoutes_request id c src dst w1))
  = shown (snd (fetchRoutes_request id c src dst w2)).
Proof.
  unfold shown. intros [= Hc Ha Ht Hn].
  destruct src, dst; simpl; now rewrite Hc, Ha, Ht, Hn.
Qed.

Lemma fetchRoutes_dst_shown id c dq src (w1 w2 : World) :
  shown w1 = shown w2 ->
  shown (snd (fetchRoutes_dst parseFloat id c dq src w1))
  = shown (snd (fetchRoutes_dst parseFloat id c dq src w2)).
Proof.
  intros H. unfold fetchRoutes_dst. destruct (geocodeLocation parseFloat dq c).
  - now apply fetchRoutes_request_shown.
  - unfold shown in *. injection H as Hc Ha Ht Hn. simpl. now rewrite Hc, Ha, Ht, Hn.
Qed.

(** C8, as the code has it. [geocodeLocation] gives its caller [null]
    alike for an empty query, for an answer without a match and for a
    failure of the service (which only leaves a line on the console), and
    [fetchRoutes], resumed by either failure, goes on alike: the same
    cells, the same alerts, the same calls in flight. *)
Theorem geocode_failures_alike (query cityName : string)
    (reply : Reply (list GeoMatch)) (w : World) (id : nat) :
  query = "" \/ reply = Rejected \/ reply = Resolved [] ->
  geocode_outcome parseFloat query cityName reply w = None
  /\ shown <$> step parseFloat w (GeoReply id Rejected)
     = shown <$> step parseFloat w (GeoReply id (Resolved [])).
Proof.
  intros H. split.
  - unfold geocode_outcome.
    destruct (geocodeLocation parseFloat query cityName) as [r|request resume] eqn:E.
    + unfold geocodeLocation in E.
      destruct (negb (str_truthy (Some query))); [|discriminate]. now injection E as <-.
    + destruct (geocodeLocation_resume_failures _ _ _ _ w E) as [Hrej Hnil].
      destruct H as [-> | [-> | ->]].
      * discriminate E.
      * now rewrite Hrej.
      * now rewrite Hnil.
  - unfold step, handler. destruct (tasks w !! id) as [t|]; [|reflexivity].
    destruct t as [c sq dq|c dq src| | |]; try reflexivity; simpl; f_equal.
    + destruct (geocodeLocation parseFloat sq c) as [r|request resume] eqn:E; [reflexivity|].
      unfold bind, wake.
      match goal with
      | |- context [resume Rejected ?w0] =>
          destruct (geocodeLocation_resume_failures _ _ _ _ w0 E) as [-> ->]
      end.
      now apply fetchRoutes_dst_shown.
    + destruct (geocodeLocation parseFloat dq c) as [r|request resume] eqn:E; [reflexivity|].
      unfold bind, wake.
      match goal with
      | |- context [resume Rejected ?w0] =>
          destruct (geocodeLocation_resume_failures _ _ _ _ w0 E) as [-> ->]
      end.
      now apply fetchRoutes_request_shown.
Qed.

End Properties.

(** ** The session, step by step *)

(** The first scenario of the specification: Indiranagar to MG Road in
    Bengaluru, scores 60 and 85; the routes are labelled [moderate] and
    [safe], the places are marked and [safeZones] is empty. *)
Example routes_labelled :
  let w := world_after [ChangeSrcQuery "Indiranagar"; ChangeDstQuery "MG Road"; ClickGetRoutes;
                        GeoReply 0 (Resolved [indiranagar]); GeoReply 0 (Resolved [mg_road]);
                        RouteReply 0 (Resolved payload_A)] in
  (safety_label <$> fastest (cells w)) = Some (Some "moderate")
  /\ (safety_label <$> safest (cells w)) = Some (Some "safe")
  /\ srcCoords (cells w) = Some (location_of parseFloat_session indiranagar)
  /\ dstCoords (cells w) = Some (location_of parseFloat_session mg_road)
  /\ safeZones (cells w) = [] /\ alerts w = [] /\ tasks w = ∅.
Proof. vm_compute. repeat split. Qed.

(** Without a source, SOS only alerts; with empty queries, "Get Routes"
    only alerts. *)
Example nothing_to_send :
  (alerts <$> step parseFloat_session initial_world ClickSOS) = Some ["Set a source first!"]
  /\ (alerts <$> step parseFloat_session initial_world ClickGetRoutes)
     = Some ["Invalid source or destination"]
  /\ (cells <$> step parseFloat_session initial_world ClickGetRoutes) = Some initial_cells.
Proof. vm_compute. repeat split. Qed.

(** C1, witness: with both route requests of the session in flight, the
    answer to the second arrives, then the answer to the first, and the
    routes shown are those of the first request. *)
Lemma latest_response_wins_witness :
  exists w1 w2,
    step parseFloat_session (world_after two_requests_in_flight)
         (RouteReply 1 (Resolved payload_B)) = Some w1
    /\ fastest (cells w1) = Some (with_label fastest_B)
    /\ step parseFloat_session w1 (RouteReply 0 (Resolved payload_A)) = Some w2
    /\ fastest (cells w2) = Some (with_label fastest_A)
    /\ safest (cells w2) = Some (with_label safest_A).
Proof.
  edestruct (latest_response_wins parseFloat_session (world_after two_requests_in_flight) 0 1)
    as (w1 & w2 & H1 & H2 & _ & H3 & H4 & H5 & _);
    [vm_compute; reflexivity | vm_compute; reflexivity | lia |].
  exists w1, w2. repeat split; [exact H1 | exact H2 | exact H3 | exact H4 | exact H5].
Defined.

(** C1, as specified, fails: in the session, request 0 (to MG Road) is
    superseded by request 1 (to Koramangala) while in flight; the answer
    to request 1 arrives first and the late answer to request 0 then
    overwrites it, so the routes shown are not those of the request issued
    last. *)
Lemma stale_response_overwrites : ~ (exists parseFloat, last_request_wins parseFloat).
Proof.
  intros [parseFloat H].
  destruct (run parseFloat (world_after two_requests_in_flight)
              [RouteReply 1 (Resolved (Some (mkRoutePayload (Some fastest_B) (Some safest_B))));
               RouteReply 0 (Resolved (Some (mkRoutePayload (Some fastest_A) (Some safest_A))))])
    as [w'|] eqn:E; [|vm_compute in E; discriminate E].
  edestruct (H (world_after two_requests_in_flight) w' 0 1) as [Hf _];
    [vm_compute; reflexivity | vm_compute; reflexivity | lia | exact E |].
  vm_compute in E. injection E as <-.
  vm_compute in Hf. discriminate Hf.
Qed.

(** C2, witness: the routes to MG Road are shown and the request for
    Koramangala is in flight; its answer lacks the safest route, and both
    routes shown stay. *)
Lemma malformed_payload_all_or_nothing_witness :
  exists w',
    step parseFloat_session (world_after overlay_shown_request_in_flight)
         (RouteReply 2 (Resolved (Some (mkRoutePayload (Some fastest_B) None)))) = Some w'
    /\ fastest (cells w') = Some (with_label fastest_A)
    /\ safest (cells w') = Some (with_label safest_A)
    /\ alerts w' = ["Error fetching routes"].
Proof.
  edestruct (fun c s d =>
               malformed_payload_all_or_nothing parseFloat_session
                 (world_after overlay_shown_request_in_flight) 2 c s d
                 (Some (mkRoutePayload (Some fastest_B) None)))
    as (w' & H1 & H2 & H3 & _ & H4);
    [vm_compute; reflexivity | right; reflexivity |].
  exists w'. split; [exact H1|]. rewrite H2, H3, H4. vm_compute. repeat split.
Defined.

(** C3, witness: a police station is shown and a second panic request is
    in flight; its answer carries an empty sequence, which empties the
    overlay. *)
Lemma panic_answer_replaces_or_reports_witness :
  exists w',
    step parseFloat_session (world_after overlay_shown_panic_in_flight)
         (PanicReply 2 (Resolved (Some (mkPanicPayload (Some []))))) = Some w'
    /\ safeZones (cells w') = [].
Proof.
  edestruct (fun c sc =>
               panic_answer_replaces_or_reports parseFloat_session
                 (world_after overlay_shown_panic_in_flight) 2 c sc
                 (Some (mkPanicPayload (Some []))))
    as (w' & H1 & H2);
    [vm_compute; reflexivity |].
  exists w'. split; [exact H1 | exact H2].
Defined.

(** C3, as specified, fails: in the session a police station is shown
    when the second panic request is answered with an empty sequence, and
    the overlay is emptied. *)
Lemma empty_panic_clears_overlay : ~ (exists parseFloat, empty_panic_keeps_overlay parseFloat).
Proof.
  intros [parseFloat H].
  destruct (step parseFloat (world_after overlay_shown_panic_in_flight)
              (PanicReply 2 (Resolved (Some (mkPanicPayload (Some []))))))
    as [w'|] eqn:E; [|vm_compute in E; discriminate E].
  edestruct (H (world_after overlay_shown_panic_in_flight) w' 2) as [Hz _];
    [vm_compute; reflexivity | exact E |].
  vm_compute in E. injection E as <-.
  vm_compute in Hz. discriminate Hz.
Qed.

(** C4, witness: a police station is shown and a route request is in
    flight; the request is rejected and the police station is still
    shown. *)
Lemma safeZones_cleared_on_success_witness :
  exists w',
    step parseFloat_session (world_after overlay_shown_request_in_flight)
         (RouteReply 2 Rejected) = Some w'
    /\ safeZones (cells w') = [police_station].
Proof.
  destruct (step parseFloat_session (world_after overlay_shown_request_in_flight)
              (RouteReply 2 Rejected)) as [w'|] eqn:E; [|vm_compute in E; discriminate E].
  exists w'. split; [reflexivity|].
  rewrite (safeZones_cleared_on_success parseFloat_session _ w' (RouteReply 2 Rejected)
             eq_refl E).
  vm_compute. reflexivity.
Defined.

(** C4, as specified, fails: in the session a police station is shown
    when "Get Routes" is pressed for a new destination; both geocoding
    calls succeed, the route request is rejected, the action is over and
    the police station is still shown. *)
Lemma failed_request_keeps_safeZones :
  ~ (exists parseFloat, trigger_clears_safeZones parseFloat).
Proof.
  intros [parseFloat H].
  destruct (run parseFloat (world_after overlay_shown)
              (ClickGetRoutes ::
               [GeoReply 2 (Resolved [indiranagar]); GeoReply 2 (Resolved [koramangala]);
                RouteReply 2 Rejected]))
    as [w'|] eqn:E; [|vm_compute in E; discriminate E].
  pose proof (H (world_after overlay_shown) w'
                [GeoReply 2 (Resolved [indiranagar]); GeoReply 2 (Resolved [koramangala]);
                 RouteReply 2 Rejected]
                ltac:(repeat constructor) E) as Hz.
  vm_compute in E. injection E as <-.
  specialize (Hz ltac:(vm_compute; reflexivity)).
  vm_compute in Hz. discriminate Hz.
Qed.

(** C8, witness: for the query "MG Road" a failure of the service gives
    [null], and the session, its first geocoding call in flight, goes on
    alike whether that call fails or finds nothing. *)
Lemma geocode_failures_alike_witness :
  geocode_outcome parseFloat_session "MG Road" "bengaluru" Rejected
                  (world_after geocoding_in_flight) = None
  /\ shown <$> step parseFloat_session (world_after geocoding_in_flight) (GeoReply 0 Rejected)
     = shown <$> step parseFloat_session (world_after geocoding_in_flight)
                      (GeoReply 0 (Resolved [])).
Proof.
  apply (geocode_failures_alike parseFloat_session "MG Road" "bengaluru" Rejected
           (world_after geocoding_in_flight) 0).
  right; left; reflexivity.
Defined.

(** C8, as specified, fails: for the query "MG Road" in Bengaluru, the
    caller of [geocodeLocation] gets [null] when the service fails and
    [null] when it answers without a match. *)
Lemma geocode_failures_not_distinct :
  ~ (exists parseFloat, geocode_failures_distinct parseFloat).
Proof.
  intros [parseFloat H].
  apply (H "MG Road" "bengaluru" initial_world). reflexivity.
Qed.

(** C9, witness: with routes to MG Road shown, "Get Routes" is pressed
    for Koramangala; both places are found and the route request is
    rejected: the markers are those of the new places, the routes those
    of before. *)
Lemma coords_overwritten_when_route_fails_witness :
  exists w3 w4,
    run parseFloat_session (world_after overlay_shown)
        [ClickGetRoutes; GeoReply 2 (Resolved [indiranagar]);
         GeoReply 2 (Resolved [koramangala])] = Some w3
    /\ step parseFloat_session w3 (RouteReply 2 Rejected) = Some w4
    /\ srcCoords (cells w4) = Some (location_of parseFloat_session indiranagar)
    /\ dstCoords (cells w4) = Some (location_of parseFloat_session koramangala)
    /\ fastest (cells w4) = Some (with_label fastest_A)
    /\ safest (cells w4) = Some (with_label safest_A).
Proof.
  edestruct (coords_overwritten_when_route_fails parseFloat_session (world_after overlay_shown)
               indiranagar [] koramangala [] Rejected)
    as (w3 & w4 & H1 & _ & _ & _ & H2 & H3 & H4 & H5 & H6 & _);
    [vm_compute; discriminate | vm_compute; discriminate | reflexivity |].
  exists w3, w4. split; [exact H1|]. split; [exact H2|].
  split; [exact H3|]. split; [exact H4|].
  rewrite H5, H6. vm_compute. split; reflexivity.
Defined.

(** * Further properties of the code *)

(** ** Icons and popups *)

Lemma getIconForZone_by_type (type : option string) :
  getIconForZone type =
  match type with
  | None => DefaultIcon
  | Some t =>
      if includes (toLowerCase t) "police" then policeIcon
      else if includes (toLowerCase t) "hospital" then hospitalIcon
      else if includes (toLowerCase t) "fire" then fireIcon
      else DefaultIcon
  end.
Proof. destruct type as [[|c t]|]; reflexivity. Qed.

(** X1. The icon of a safe zone and the emergency number of its popup
    never disagree: for a zone without a usable phone, the number is "100"
    under the police icon, "108" under the hospital icon, "101" under the
    fire icon and "112" under the default icon. *)
Theorem icon_matches_number (z : SafeZone) :
  str_truthy (zone_phone z) = false ->
  getEmergencyNumber z =
  match getIconForZone (zone_type z) with
  | policeIcon => "100"
  | hospitalIcon => "108"
  | fireIcon => "101"
  | DefaultIcon => "112"
  end.
Proof.
  intros Hp. rewrite (getEmergencyNumber_by_type z Hp), getIconForZone_by_type.
  destruct (zone_type z) as [t|]; [|reflexivity].
  destruct (includes (toLowerCase t) "police"); [reflexivity|].
  destruct (includes (toLowerCase t) "hospital"); [reflexivity|].
  destruct (includes (toLowerCase t) "fire"); reflexivity.
Qed.

(** X1, witness: the police station of the session. *)
Lemma icon_matches_number_witness :
  getIconForZone (zone_type police_station) = policeIcon
  /\ getEmergencyNumber police_station = "100".
Proof.
  split; [reflexivity|].
  apply (icon_matches_number police_station). reflexivity.
Defined.







(** ** Labels on routes *)

Lemma getSafetyLabel_cases (score : JSNum) :
  getSafetyLabel score = "safe" \/ getSafetyLabel score = "moderate"
  \/ getSafetyLabel score = "unsafe".
Proof.
  unfold getSafetyLabel.
  destruct (js_ge score (num_of_Z 75)); [tauto|].
  destruct (js_ge score (num_of_Z 40)); tauto.
Qed.

(** X4. Labelling a route object changes nothing but the label, and
    labelling twice is labelling once; the label is one of the three, and
    a route whose score is missing, zero or NaN is labelled [unsafe] (its
    score counts as 0). *)
Theorem with_label_properties (route : Route) :
  coords (with_label route) = coords route
  /\ distance_km (with_label route) = distance_km route
  /\ time_min (with_label route) = time_min route
  /\ safety_score (with_label route) = safety_score route
  /\ with_label (with_label route) = with_label route
  /\ (exists l, safety_label (with_label route) = Some l
                /\ (l = "safe" \/ l = "moderate" \/ l = "unsafe"))
  /\ (match safety_score route with
      | Some n => num_truthy n = false
      | None => True
      end -> safety_label (with_label route) = Some "unsafe").
Proof.
  repeat split.
  - eexists. split; [reflexivity|]. apply getSafetyLabel_cases.
  - unfold with_label, score_or_0; simpl.
    destruct (safety_score route) as [n|]; [|reflexivity].
    intros ->. reflexivity.
Qed.

(** X4, witness: a route without a score and a route with score 0. *)
Lemma with_label_properties_witness :
  safety_label (with_label (mkRoute None None None None None)) = Some "unsafe"
  /\ safety_label (with_label (mkRoute None None None (Some (Fin 0)) (Some "safe")))
     = Some "unsafe".
Proof.
  split.
  - apply (proj2 (proj2 (proj2 (proj2 (proj2 (proj2
             (with_label_properties (mkRoute None None None None None)))))))). exact I.
  - apply (proj2 (proj2 (proj2 (proj2 (proj2 (proj2
             (with_label_properties (mkRoute None None None (Some (Fin 0)) (Some "safe"))))))))).
    reflexivity.
Defined.

(** ** The report page *)

(** X5. Whatever type is selected, at most one category card is active:
    exactly one when the selected type is one of the four categories, none
    otherwise (as on the first render, where it is the empty string). *)
Theorem one_active_category (selectedType : string) :
  length (List.filter (fun cls => String.eqb cls "category-card active")
                      (category_cards selectedType))
  = (if existsb (fun c => String.eqb selectedType (cat_id c)) categories then 1 else 0)
  /\ List.filter (fun cls => String.eqb cls "category-card active") (category_cards "") = [].
Proof.
  split; [|reflexivity].
  unfold category_cards, categories, category_className. cbn [map existsb cat_id orb].
  destruct (String.eqb selectedType "lighting") eqn:E1;
    [apply String.eqb_eq in E1; subst; reflexivity|].
  destruct (String.eqb selectedType "harassment") eqn:E2;
    [apply String.eqb_eq in E2; subst; reflexivity|].
  destruct (String.eqb selectedType "unsafe") eqn:E3;
    [apply String.eqb_eq in E3; subst; reflexivity|].
  destruct (String.eqb selectedType "infra") eqn:E4;
    [apply String.eqb_eq in E4; subst; reflexivity|].
  reflexivity.
Qed.

(** ** The handlers, further *)

Section MoreProperties.

Variable parseFloat : string -> JSNum.

Lemma geocodeLocation_returns (query cityName : string) r :
  geocodeLocation parseFloat query cityName = Returned r -> query = "" /\ r = None.
Proof.
  unfold geocodeLocation. simpl. destruct (String.eqb query "") eqn:E; simpl; [|discriminate].
  intros [= <-]. split; [now apply String.eqb_eq | reflexivity].
Qed.

(** What resumes [geocodeLocation] does not look at the world. *)
Lemma geocodeLocation_resume_uniform (query cityName request : string) resume reply :
  geocodeLocation parseFloat query cityName = Awaiting request resume ->
  exists r log,
    (forall w, resume reply w
               = (Some r, mkWorld (cells w) (alerts w) (console w ++ log) (tasks w)
                                  (next_task w)))
    /\ r = match reply with
           | Resolved (m :: _) => Some (location_of parseFloat m)
           | _ => None
           end.
Proof.
  unfold geocodeLocation. destruct (negb (str_truthy (Some query))); [discriminate|].
  intros H. injection H as _ <-.
  destruct reply as [|[|m ms]].
  - exists None, ["Geocoding error:"]. split; [reflexivity|reflexivity].
  - exists None, []. split; [|reflexivity]. intros w. simpl. rewrite app_nil_r. now destruct w.
  - eexists _, []. split; [|reflexivity]. intros w. simpl. rewrite app_nil_r. now destruct w.
Qed.

(** X6. [geocodeLocation] gives a location exactly when the query is not
    empty and the service answers with at least one match, and the
    location is that of the first match, whatever follows it; in every
    other case (empty query, failure, no match) it gives [null]. *)
Theorem geocode_finds_first_match (query cityName : string)
    (reply : Reply (list GeoMatch)) (w : World) (l : Location) :
  geocode_outcome parseFloat query cityName reply w = Some l
  <-> query <> "" /\ exists m ms, reply = Resolved (m :: ms) /\ l = location_of parseFloat m.
Proof.
  unfold geocode_outcome.
  destruct (geocodeLocation parseFloat query cityName) as [r|request resume] eqn:E.
  - apply geocodeLocation_returns in E as [-> ->]. split; [discriminate | intros [[] _]; reflexivity].
  - assert (query <> "") as Hq.
    { intros ->. discriminate E. }
    destruct (geocodeLocation_resume_uniform _ _ _ _ reply E) as (r & log & Hr & ->).
    rewrite Hr. simpl. split.
    + destruct reply as [|[|m ms]]; try discriminate.
      intros [= <-]. split; [exact Hq|]. now exists m, ms.
    + intros [_ (m & ms & -> & ->)]. reflexivity.
Qed.

Lemma geocoding_dst_gives_up (w : World) (id : nat) c dq src
    (reply : Reply (list GeoMatch)) :
  tasks w !! id = Some (GeocodingDst c dq src) ->
  src = None \/ reply = Rejected \/ reply = Resolved [] ->
  exists w',
    step parseFloat w (GeoReply id reply) = Some w'
    /\ cells w' = cells w
    /\ alerts w' = alerts w ++ ["Invalid source or destination"]
    /\ tasks w' = delete id (tasks w).
Proof.
  intros Ht H. unfold step, handler. rewrite Ht. simpl.
  eexists. split; [reflexivity|].
  destruct (geocodeLocation parseFloat dq c) as [r|request resume] eqn:E.
  - apply geocodeLocation_returns in E as [_ ->].
    unfold bind, wake, ret. simpl. destruct src; repeat split.
  - destruct (geocodeLocation_resume_uniform _ _ _ _ reply E) as (r & log & Hr & Hres).
    unfold bind, wake. rewrite Hr.
    assert (src = None \/ r = None) as [-> | ->].
    { destruct H as [-> | [-> | ->]]; [now left | right; exact Hres | right; exact Hres]. }
    + destruct r; repeat split.
    + destruct src; repeat split.
Qed.

(** X7. A destination is discarded when the action cannot go on: if the
    source was not found, or the destination is not, the reply to the
    second geocoding call ends the action with "Invalid source or
    destination"; no marker is written, even for the place that was
    found, and no route request is made. *)
Theorem partial_resolution_discarded (w : World) (id : nat) c dq src
    (reply : Reply (list GeoMatch)) :
  tasks w !! id = Some (GeocodingDst c dq src) ->
  src = None \/ reply = Rejected \/ reply = Resolved [] ->
  exists w',
    step parseFloat w (GeoReply id reply) = Some w'
    /\ cells w' = cells w
    /\ srcCoords (cells w') = srcCoords (cells w)
    /\ dstCoords (cells w') = dstCoords (cells w)
    /\ alerts w' = alerts w ++ ["Invalid source or destination"]
    /\ tasks w' = delete id (tasks w).
Proof.
  intros Ht H. destruct (geocoding_dst_gives_up w id c dq src reply Ht H)
    as (w' & Hstep & Hc & Ha & Htasks).
  exists w'. rewrite Hc. repeat split; assumption.
Qed.

Lemma step_ClickGetRoutes_empty_src (w : World) :
  srcQuery (cells w) = "" ->
  step parseFloat w ClickGetRoutes
  = Some (snd (fetchRoutes_dst parseFloat (next_task w) (city (cells w)) (dstQuery (cells w))
                 None
                 (mkWorld (cells w) (alerts w) (console w) (tasks w) (S (next_task w))))).
Proof.
  intros Hq. unfold step, handler, bind, fresh, fetchRoutes. simpl. rewrite Hq. reflexivity.
Qed.

(** X8. With an empty source query "Get Routes" can only fail, and does:
    with an empty destination query too it alerts "Invalid source or
    destination" at once, without any remote call; otherwise the
    destination is geocoded all the same, and whatever the geocoder
    answers the action then ends with that alert. No cell is written
    either way. *)
Theorem empty_source_query_fails (w : World) :
  srcQuery (cells w) = "" ->
  let id := next_task w in
  exists w1,
    step parseFloat w ClickGetRoutes = Some w1
    /\ cells w1 = cells w
    /\ if String.eqb (dstQuery (cells w)) ""
       then alerts w1 = alerts w ++ ["Invalid source or destination"]
            /\ tasks w1 = tasks w
       else alerts w1 = alerts w
            /\ tasks w1 !! id = Some (GeocodingDst (city (cells w)) (dstQuery (cells w)) None)
            /\ forall reply, exists w2,
                 step parseFloat w1 (GeoReply id reply) = Some w2
                 /\ cells w2 = cells w
                 /\ alerts w2 = alerts w ++ ["Invalid source or destination"]
                 /\ tasks w2 !! id = None.
Proof.
  intros Hq id. rewrite (step_ClickGetRoutes_empty_src w Hq).
  eexists. split; [reflexivity|]. unfold fetchRoutes_dst.
  destruct (String.eqb (dstQuery (cells w)) "") eqn:E.
  - apply String.eqb_eq in E. rewrite E. simpl. repeat split.
  - apply String.eqb_neq in E.
    destruct (geocodeLocation_awaits parseFloat (dstQuery (cells w)) (city (cells w)) E)
      as (request & resume & Hg & _).
    rewrite Hg. simpl. split; [reflexivity|]. split; [reflexivity|].
    split; [apply lookup_insert_eq|].
    intros reply.
    edestruct (geocoding_dst_gives_up
                 (mkWorld (cells w) (alerts w) (console w)
                    (<[id := GeocodingDst (city (cells w)) (dstQuery (cells w)) None]> (tasks w))
                    (S (next_task w))) id) as (w2 & Hstep & Hc & Ha & Htasks);
      [apply lookup_insert_eq | left; reflexivity |].
    exists w2. split; [exact Hstep|]. split; [exact Hc|]. split; [exact Ha|].
    rewrite Htasks. apply lookup_delete_eq.
Qed.

(** X9. With an empty destination query the source is geocoded first, and
    whatever the geocoder answers, a match included, the action then ends
    with "Invalid source or destination": the place found is not marked
    and no further call is made. *)
Theorem empty_destination_query_fails (w : World) (reply : Reply (list GeoMatch)) :
  srcQuery (cells w) <> "" ->
  dstQuery (cells w) = "" ->
  let id := next_task w in
  exists w2,
    run parseFloat w [ClickGetRoutes; GeoReply id reply] = Some w2
    /\ cells w2 = cells w
    /\ alerts w2 = alerts w ++ ["Invalid source or destination"]
    /\ tasks w2 !! id = None.
Proof.
  intros Hs Hd id. cbn [run]. rewrite (step_ClickGetRoutes parseFloat w Hs).
  unfold step, handler. cbn [tasks]. rewrite lookup_insert_eq. simpl.
  destruct (geocodeLocation_awaits parseFloat (srcQuery (cells w)) (city (cells w)) Hs)
    as (request & resume & Hg & _).
  rewrite Hg.
  destruct (geocodeLocation_resume_uniform _ _ _ _ reply Hg) as (r & log & Hr & _).
  unfold bind, wake. rewrite Hr. unfold fetchRoutes_dst. rewrite Hd. simpl.
  eexists. split; [reflexivity|].
  destruct r; simpl; (split; [reflexivity|]); (split; [reflexivity|]); apply lookup_delete_eq.
Qed.

(** X10. A "get routes" action whose calls all succeed: both places are
    marked, both routes are stored with their labels, the overlay of safe
    zones is emptied, nothing is alerted and the action is over; the
    city, the queries, the tab and the reports are as before. *)
Theorem get_routes_succeeds (w : World) m1 ms1 m2 ms2 (f s : Route) :
  srcQuery (cells w) <> "" ->
  dstQuery (cells w) <> "" ->
  let id := next_task w in
  exists w',
    run parseFloat w
        [ClickGetRoutes; GeoReply id (Resolved (m1 :: ms1)); GeoReply id (Resolved (m2 :: ms2));
         RouteReply id (Resolved (Some (mkRoutePayload (Some f) (Some s))))] = Some w'
    /\ cells w' =
       setSafeZones [] (setSafest (Some (with_label s)) (setFastest (Some (with_label f))
         (setDstCoords (Some (location_of parseFloat m2))
            (setSrcCoords (Some (location_of parseFloat m1)) (cells w)))))
    /\ alerts w' = alerts w
    /\ tasks w' !! id = None.
Proof.
  intros Hsq Hdq id. cbn [run].
  rewrite (step_ClickGetRoutes parseFloat w Hsq).
  erewrite step_GeoReply_src; [|apply lookup_insert_eq|assumption|assumption].
  erewrite step_GeoReply_dst; [|apply lookup_insert_eq|assumption].
  erewrite step_RouteReply; [|apply lookup_insert_eq].
  rewrite fetchRoutes_response_success. cbn [snd cells alerts tasks].
  eexists. split; [reflexivity|]. split; [reflexivity|]. split; [reflexivity|].
  apply lookup_delete_eq.
Qed.

(** *** SOS and reports *)

(** X11. SOS needs a source and the report button a destination: without
    it the handler only alerts ("Set a source first!", "Set a destination
    first!"); no call is made and no cell is written. *)
Theorem buttons_need_their_location (w : World) :
  (srcCoords (cells w) = None ->
   exists w', step parseFloat w ClickSOS = Some w'
              /\ cells w' = cells w /\ tasks w' = tasks w
              /\ alerts w' = alerts w ++ ["Set a source first!"])
  /\ (dstCoords (cells w) = None ->
      exists w', step parseFloat w ClickReport = Some w'
                 /\ cells w' = cells w /\ tasks w' = tasks w
                 /\ alerts w' = alerts w ++ ["Set a destination first!"]).
Proof.
  split; intros H; unfold step, handler, bind, fresh, triggerPanic, reportUnsafe;
    simpl; rewrite H; eexists; repeat split.
Qed.

(** X12. A whole SOS action from a render with a source: the panic
    request is made for the city and the source of that render; its
    answer writes [safeZones] when it carries zones and nothing else in
    any case (routes, markers and reports stay); a failure alerts "Panic
    API failed", an answer without zones "No safe locations found". *)
Theorem panic_flow (w : World) (sc : Location) (reply : Reply (option PanicPayload)) :
  srcCoords (cells w) = Some sc ->
  let id := next_task w in
  exists w1 w2,
    step parseFloat w ClickSOS = Some w1
    /\ tasks w1 !! id = Some (RequestingPanic (city (cells w)) sc)
    /\ cells w1 = cells w /\ alerts w1 = alerts w
    /\ step parseFloat w1 (PanicReply id reply) = Some w2
    /\ cells w2 = match reply with
                  | Resolved (Some {| payload_safe_zones := Some zones |}) =>
                      setSafeZones zones (cells w)
                  | _ => cells w
                  end
    /\ alerts w2 = alerts w ++ match reply with
                               | Rejected => ["Panic API failed"]
                               | Resolved (Some {| payload_safe_zones := Some _ |}) => []
                               | Resolved _ => ["No safe locations found"]
                               end
    /\ tasks w2 !! id = None.
Proof.
  intros H id. unfold step at 1, handler, bind, fresh, triggerPanic. simpl. rewrite H.
  eexists. eexists. split; [reflexivity|].
  split; [apply lookup_insert_eq|]. split; [reflexivity|]. split; [reflexivity|].
  unfold step, handler. cbn [tasks snd suspend]. rewrite lookup_insert_eq.
  split; [reflexivity|].
  destruct reply as [|[[[zones|]]|]]; simpl; rewrite ?app_nil_r;
    (split; [reflexivity|]); (split; [reflexivity|]); apply lookup_delete_eq.
Qed.

Lemma step_ClickReport (w : World) (d : Location) :
  dstCoords (cells w) = Some d ->
  step parseFloat w ClickReport
  = Some (mkWorld (cells w) (alerts w) (console w)
            (<[next_task w := SubmittingReport (reports (cells w)) d]> (tasks w))
            (S (next_task w))).
Proof.
  intros H. unfold step, handler, bind, fresh, reportUnsafe. simpl. now rewrite H.
Qed.

Lemma step_ReportReply_ack (w : World) (id : nat) r d :
  tasks w !! id = Some (SubmittingReport r d) ->
  step parseFloat w (ReportReply id (Resolved tt))
  = Some (mkWorld (setReports (r ++ [report_of d]) (cells w))
            (alerts w ++ ["Unsafe spot reported!"]) (console w)
            (delete id (tasks w)) (next_task w)).
Proof.
  intros H. unfold step, handler. now rewrite H.
Qed.

Lemma step_ReportReply_rejected (w : World) (id : nat) r d :
  tasks w !! id = Some (SubmittingReport r d) ->
  step parseFloat w (ReportReply id Rejected)
  = Some (mkWorld (cells w) (alerts w ++ ["Report API failed"]) (console w ++ ["error"])
            (delete id (tasks w)) (next_task w)).
Proof.
  intros H. unfold step, handler. now rewrite H.
Qed.

(** X13. A whole report action from a render with a destination: when
    the service acknowledges, one entry with the coordinates of that
    destination is appended to [reports] and the user is told "Unsafe
    spot reported!"; when it fails, [reports] is as before and the user
    is told "Report API failed". No other cell is written. *)
Theorem report_flow (w : World) (d : Location) (reply : Reply unit) :
  dstCoords (cells w) = Some d ->
  let id := next_task w in
  exists w',
    run parseFloat w [ClickReport; ReportReply id reply] = Some w'
    /\ cells w' = match reply with
                  | Resolved _ => setReports (reports (cells w) ++ [report_of d]) (cells w)
                  | Rejected => cells w
                  end
    /\ alerts w' = alerts w ++ match reply with
                               | Resolved _ => ["Unsafe spot reported!"]
                               | Rejected => ["Report API failed"]
                               end
    /\ tasks w' !! id = None.
Proof.
  intros H id. cbn [run]. rewrite (step_ClickReport w d H).
  destruct reply as [|[]].
  - erewrite step_ReportReply_rejected; [|apply lookup_insert_eq].
    eexists. split; [reflexivity|]. repeat split. apply lookup_delete_eq.
  - erewrite step_ReportReply_ack; [|apply lookup_insert_eq].
    eexists. split; [reflexivity|]. repeat split. apply lookup_delete_eq.
Qed.

(** X14. Reports are not deduplicated: reporting the same destination
    twice, the second time after the first was acknowledged, appends two
    equal entries. *)
Theorem report_twice_appends_twice (w : World) (d : Location) :
  dstCoords (cells w) = Some d ->
  let id := next_task w in
  exists w',
    run parseFloat w [ClickReport; ReportReply id (Resolved tt);
                      ClickReport; ReportReply (S id) (Resolved tt)] = Some w'
    /\ reports (cells w') = reports (cells w) ++ [report_of d; report_of d]
    /\ length (reports (cells w')) = length (reports (cells w)) + 2.
Proof.
  intros H id. cbn [run]. rewrite (step_ClickReport w d H).
  erewrite step_ReportReply_ack; [|apply lookup_insert_eq].
  erewrite step_ClickReport; [|exact H].
  erewrite step_ReportReply_ack; [|apply lookup_insert_eq].
  eexists. split; [reflexivity|]. cbn [cells reports setReports].
  rewrite <- app_assoc. split; [reflexivity|]. rewrite length_app. reflexivity.
Qed.

(** X15. An acknowledged report overwrites [reports] with the list of
    the render it was made in plus its own entry. So of two reports made
    in the same render, both acknowledged and both announced to the user,
    only the one acknowledged last is kept: the entry of the other is
    lost. *)
Theorem overlapping_reports_lose_one (w : World) (a b : nat) (r : list Report)
    (da db : Location) :
  tasks w !! a = Some (SubmittingReport r da) ->
  tasks w !! b = Some (SubmittingReport r db) ->
  a <> b ->
  exists w',
    run parseFloat w [ReportReply a (Resolved tt); ReportReply b (Resolved tt)] = Some w'
    /\ reports (cells w') = r ++ [report_of db]
    /\ length (reports (cells w')) = length r + 1
    /\ alerts w' = alerts w ++ ["Unsafe spot reported!"; "Unsafe spot reported!"].
Proof.
  intros Ha Hb Hab. cbn [run]. rewrite (step_ReportReply_ack w a r da Ha).
  erewrite step_ReportReply_ack;
    [|cbn [tasks]; rewrite lookup_delete_ne by congruence; exact Hb].
  eexists. split; [reflexivity|]. cbn [cells reports setReports alerts].
  split; [reflexivity|]. split; [now rewrite length_app|]. now rewrite <- app_assoc.
Qed.

(** *** What every render of a session satisfies *)

Lemma invariant_cells_tasks (w : World) (c : Cells) (ts : gmap nat Task) a co n :
  session_invariant w ->
  fastest c = fastest (cells w) -> safest c = safest (cells w) ->
  srcCoords c = srcCoords (cells w) -> dstCoords c = dstCoords (cells w) ->
  (forall id c' s d, ts !! id = Some (RequestingRoute c' s d) ->
                     exists id', tasks w !! id' = Some (RequestingRoute c' s d)) ->
  session_invariant (mkWorld c a co ts n).
Proof.
  intros [(H1 & H2 & H3 & H4 & H5) H6] Hf Hs Hsc Hdc Ht.
  unfold session_invariant, routes_consistent. simpl. rewrite Hf, Hs, Hsc, Hdc.
  repeat split; try tauto.
  intros id c' s d Hl. destruct (Ht _ _ _ _ Hl) as [id' Hl']. eauto.
Qed.

Lemma invariant_delete (w : World) (id : nat) :
  session_invariant w ->
  session_invariant (mkWorld (cells w) (alerts w) (console w) (delete id (tasks w))
                             (next_task w)).
Proof.
  intros H. apply (invariant_cells_tasks w); try reflexivity; [exact H|].
  intros id' c' s d Hl. apply lookup_delete_Some in Hl as [_ Hl]. eauto.
Qed.

Lemma invariant_request id c src dst (w : World) :
  session_invariant w ->
  session_invariant (snd (fetchRoutes_request id c src dst w)).
Proof.
  intros H. destruct src as [s|], dst as [d|]; simpl;
    try (apply (invariant_cells_tasks w); try reflexivity; [exact H | eauto]).
  destruct H as [(H1 & H2 & H3 & H4 & H5) H6].
  unfold session_invariant, routes_consistent. simpl.
  repeat split; try tauto; try discriminate.
Qed.

Lemma invariant_dst id c dq src (w : World) :
  session_invariant w ->
  session_invariant (snd (fetchRoutes_dst parseFloat id c dq src w)).
Proof.
  intros H. unfold fetchRoutes_dst. destruct (geocodeLocation parseFloat dq c).
  - now apply invariant_request.
  - simpl. apply (invariant_cells_tasks w); try reflexivity; [exact H|].
    intros id' c' s d Hl. apply lookup_insert_Some in Hl as [[_ [=]] | [_ Hl]]. eauto.
Qed.

Lemma invariant_fetchRoutes id c (w : World) :
  session_invariant w ->
  session_invariant (snd (fetchRoutes parseFloat id c w)).
Proof.
  intros H. unfold fetchRoutes. destruct (geocodeLocation parseFloat (srcQuery c) (city c)).
  - now apply invariant_dst.
  - simpl. apply (invariant_cells_tasks w); try reflexivity; [exact H|].
    intros id' c' s d Hl. apply lookup_insert_Some in Hl as [[_ [=]] | [_ Hl]]. eauto.
Qed.

Lemma invariant_resume_geocoding id t reply code (w : World) :
  resume_geocoding parseFloat id t reply = Some code ->
  session_invariant w ->
  session_invariant (snd (code w)).
Proof.
  destruct t as [c sq dq|c dq src| | |]; simpl; try discriminate;
    intros [= <-] H.
  - destruct (geocodeLocation parseFloat sq c) as [r|request resume] eqn:E.
    + now apply (invariant_dst id c dq r w).
    + destruct (geocodeLocation_resume_uniform _ _ _ _ reply E) as (r & log & Hr & _).
      unfold bind. rewrite Hr. apply invariant_dst.
      apply (invariant_cells_tasks w); try reflexivity; [exact H | eauto].
  - destruct (geocodeLocation parseFloat dq c) as [r|request resume] eqn:E.
    + now apply (invariant_request id c src r w).
    + destruct (geocodeLocation_resume_uniform _ _ _ _ reply E) as (r & log & Hr & _).
      unfold bind. rewrite Hr. apply invariant_request.
      apply (invariant_cells_tasks w); try reflexivity; [exact H | eauto].
Qed.

Lemma invariant_step (w w' : World) (e : Event) :
  session_invariant w ->
  step parseFloat w e = Some w' ->
  session_invariant w'.
Proof.
  intros H. unfold step, handler.
  destruct e as [v|v|v|v| | | |id reply|id reply|id reply|id reply].
  - intros [= <-]. apply (invariant_cells_tasks w); try reflexivity; [exact H | eauto].
  - intros [= <-]. apply (invariant_cells_tasks w); try reflexivity; [exact H | eauto].
  - intros [= <-]. apply (invariant_cells_tasks w); try reflexivity; [exact H | eauto].
  - intros [= <-]. apply (invariant_cells_tasks w); try reflexivity; [exact H | eauto].
  - intros [= <-]. unfold bind, fresh. apply invariant_fetchRoutes.
    apply (invariant_cells_tasks w); try reflexivity; [exact H | eauto].
  - intros [= <-]. unfold bind, fresh, triggerPanic. simpl.
    destruct (srcCoords (cells w)); simpl;
      apply (invariant_cells_tasks w); try reflexivity; try exact H; eauto.
    intros id' c' s d Hl. apply lookup_insert_Some in Hl as [[_ [=]] | [_ Hl]]. eauto.
  - intros [= <-]. unfold bind, fresh, reportUnsafe. simpl.
    destruct (dstCoords (cells w)); simpl;
      apply (invariant_cells_tasks w); try reflexivity; try exact H; eauto.
    intros id' c' s d Hl. apply lookup_insert_Some in Hl as [[_ [=]] | [_ Hl]]. eauto.
  - destruct (tasks w !! id) as [t|]; [|discriminate].
    destruct (resume_geocoding parseFloat id t reply) as [code|] eqn:E; [|discriminate].
    intros [= <-]. unfold bind, wake.
    apply (invariant_resume_geocoding _ _ _ _ _ E). now apply invariant_delete.
  - destruct (tasks w !! id) as [[| |c s d| |]|] eqn:Ht; try discriminate.
    intros [= <-]. unfold bind, wake.
    destruct (routes_of reply) as [[f sf]|] eqn:Hr.
    + destruct reply as [|[[[f'|] [s'|]]|]]; try discriminate Hr.
      rewrite fetchRoutes_response_success.
      destruct H as [(H1 & H2 & H3 & H4 & H5) H6].
      pose proof (H6 _ _ _ _ Ht) as Hsrc.
      unfold session_invariant, routes_consistent. simpl.
      repeat split; try tauto; try discriminate.
    + destruct (fetchRoutes_response_failure reply
                  (mkWorld (cells w) (alerts w) (console w) (delete id (tasks w)) (next_task w))
                  Hr) as [log ->].
      simpl. apply (invariant_cells_tasks w); try reflexivity; [exact H|].
      intros id' c' s0 d0 Hl. apply lookup_delete_Some in Hl as [_ Hl]. eauto.
  - destruct (tasks w !! id) as [[| | |c sc|]|]; try discriminate.
    intros [= <-].
    destruct reply as [|[[[zones|]]|]]; simpl;
      apply (invariant_cells_tasks w); try reflexivity; try exact H;
      intros id' c' s0 d0 Hl; apply lookup_delete_Some in Hl as [_ Hl]; eauto.
  - destruct (tasks w !! id) as [[| | | |r d]|]; try discriminate.
    intros [= <-].
    destruct reply as [|[]]; simpl;
      apply (invariant_cells_tasks w); try reflexivity; try exact H;
      intros id' c' s0 d0 Hl; apply lookup_delete_Some in Hl as [_ Hl]; eauto.
Qed.

Lemma invariant_run (es : list Event) (w w' : World) :
  session_invariant w ->
  run parseFloat w es = Some w' ->
  session_invariant w'.
Proof.
  revert w. induction es as [|e es IH]; intros w H; simpl.
  - now intros [= <-].
  - destruct (step parseFloat w e) as [w1|] eqn:E; [|discriminate].
    intros Hrun. apply (IH w1); [|exact Hrun]. now apply (invariant_step w w1 e).
Qed.

Lemma reachable_invariant (w : World) : reachable parseFloat w -> session_invariant w.
Proof.
  intros [es Hrun]. apply (invariant_run es initial_world w); [|exact Hrun].
  unfold session_invariant, routes_consistent. simpl. repeat split; try tauto.
  intros id c s d Hl. rewrite lookup_empty in Hl. discriminate Hl.
Qed.

(** X16. In every render of a session the two routes come together
    (both stored or neither), and each stored route carries the label of
    its own score: no stale or missing label, no route kind alone. *)
Theorem routes_come_together_labelled (w : World) :
  reachable parseFloat w ->
  (fastest (cells w) = None <-> safest (cells w) = None)
  /\ labelled (fastest (cells w)) /\ labelled (safest (cells w)).
Proof.
  intros H. destruct (reachable_invariant w H) as [(H1 & H2 & H3 & _) _]. auto.
Qed.

(** X17. In every render of a session the start and end markers come
    together, and routes are never drawn without them: when a route is
    stored both markers are on the map. *)
Theorem markers_come_together (w : World) :
  reachable parseFloat w ->
  (srcCoords (cells w) = None <-> dstCoords (cells w) = None)
  /\ (fastest (cells w) <> None \/ safest (cells w) <> None ->
      length (route_markers (cells w)) = 2)
  /\ (length (route_markers (cells w)) = 0 \/ length (route_markers (cells w)) = 2).
Proof.
  intros H. destruct (reachable_invariant w H) as [(H1 & _ & _ & H4 & H5) _].
  unfold route_markers.
  destruct (srcCoords (cells w)) as [s|], (dstCoords (cells w)) as [d|]; simpl;
    try (exfalso; destruct H4 as [H4a H4b]; (discriminate (H4a eq_refl) || discriminate (H4b eq_refl))).
  - repeat split; auto; discriminate.
  - repeat split; auto. intros [Hf | Hs]; exfalso.
    + now apply (H5 Hf).
    + apply H5; [|reflexivity]. intros Hf. now apply Hs, H1.
Qed.

(** X18. The panel shows one route card at most, and none without a
    route; in a session its class is always one of [route-card safe],
    [route-card moderate], [route-card unsafe], never [route-card
    undefined]. *)
Theorem route_card_class (w : World) :
  reachable parseFloat w ->
  length (route_cards (cells w)) <= 1
  /\ (fastest (cells w) = None -> route_cards (cells w) = [])
  /\ forall title cls, In (title, cls) (route_cards (cells w)) ->
       cls = "route-card safe" \/ cls = "route-card moderate" \/ cls = "route-card unsafe".
Proof.
  intros H. destruct (reachable_invariant w H) as [(H1 & H2 & H3 & _) _].
  assert (forall r, labelled (Some r) ->
            card_className r = "route-card safe" \/ card_className r = "route-card moderate"
            \/ card_className r = "route-card unsafe") as Hcls.
  { intros r Hl. unfold card_className. simpl in Hl. rewrite Hl. simpl.
    destruct (getSafetyLabel_cases (score_or_0 (safety_score r))) as [-> | [-> | ->]]; auto. }
  unfold route_cards.
  destruct (fastest (cells w)) as [f|], (safest (cells w)) as [s|];
    try (exfalso; destruct H1 as [H1a H1b]; (discriminate (H1a eq_refl) || discriminate (H1b eq_refl))).
  - destruct (String.eqb (activeTab (cells w)) "fastest") eqn:Ef;
      destruct (String.eqb (activeTab (cells w)) "safest") eqn:Es; simpl.
    + apply String.eqb_eq in Ef. rewrite Ef in Es. discriminate Es.
    + split; [lia|]. split; [discriminate|].
      intros title cls [[= _ <-] | []]. now apply Hcls.
    + split; [lia|]. split; [discriminate|].
      intros title cls [[= _ <-] | []]. now apply Hcls.
    + split; [lia|]. split; [discriminate|]. intros ? ? [].
  - simpl. split; [lia|]. split; [reflexivity|]. intros ? ? [].
Qed.

(** *** Typing while calls are in flight *)

Lemma request_commutes f id c src dst (w : World) :
  input_setter f ->
  snd (fetchRoutes_request id c src dst (with_cells f w))
  = with_cells f (snd (fetchRoutes_request id c src dst w)).
Proof.
  intros (v & [-> | [-> | [-> | ->]]]); destruct src, dst; reflexivity.
Qed.

Lemma dst_commutes f id c dq src (w : World) :
  input_setter f ->
  snd (fetchRoutes_dst parseFloat id c dq src (with_cells f w))
  = with_cells f (snd (fetchRoutes_dst parseFloat id c dq src w)).
Proof.
  intros Hf. unfold fetchRoutes_dst. destruct (geocodeLocation parseFloat dq c).
  - now apply request_commutes.
  - reflexivity.
Qed.

Lemma resume_geocoding_commutes f id t reply code (w : World) :
  input_setter f ->
  resume_geocoding parseFloat id t reply = Some code ->
  snd (code (with_cells f w)) = with_cells f (snd (code w)).
Proof.
  intros Hf. destruct t as [c sq dq|c dq src| | |]; simpl; try discriminate; intros [= <-].
  - destruct (geocodeLocation parseFloat sq c) as [r|request resume] eqn:E.
    + apply (dst_commutes f id c dq r w Hf).
    + destruct (geocodeLocation_resume_uniform _ _ _ _ reply E) as (r & log & Hr & _).
      unfold bind. rewrite !Hr.
      apply (dst_commutes f id c dq r
               (mkWorld (cells w) (alerts w) (console w ++ log) (tasks w) (next_task w)) Hf).
  - destruct (geocodeLocation parseFloat dq c) as [r|request resume] eqn:E.
    + apply (request_commutes f id c src r w Hf).
    + destruct (geocodeLocation_resume_uniform _ _ _ _ reply E) as (r & log & Hr & _).
      unfold bind. rewrite !Hr.
      apply (request_commutes f id c src r
               (mkWorld (cells w) (alerts w) (console w ++ log) (tasks w) (next_task w)) Hf).
Qed.

Lemma step_input (e : Event) :
  input_change e = true ->
  exists f, input_setter f /\ forall w, step parseFloat w e = Some (with_cells f w).
Proof.
  destruct e as [v|v|v|v| | | | | | |]; try discriminate; intros _.
  - exists (setCity v). split; [exists v; tauto | reflexivity].
  - exists (setSrcQuery v). split; [exists v; tauto | reflexivity].
  - exists (setDstQuery v). split; [exists v; tauto | reflexivity].
  - exists (setActiveTab v). split; [exists v; tauto | reflexivity].
Qed.

Lemma reply_commutes f (r : Event) (w : World) :
  input_setter f ->
  is_reply r = true ->
  step parseFloat (with_cells f w) r = with_cells f <$> step parseFloat w r.
Proof.
  intros Hf Hr. unfold step, handler.
  destruct r as [| | | | | | |id reply|id reply|id reply|id reply]; try discriminate Hr;
    cbn [tasks with_cells]; destruct (tasks w !! id) as [t|]; try reflexivity.
  - destruct (resume_geocoding parseFloat id t reply) as [code|] eqn:E; [|reflexivity].
    simpl. f_equal. unfold bind, wake.
    exact (resume_geocoding_commutes f id t reply code
             (mkWorld (cells w) (alerts w) (console w) (delete id (tasks w)) (next_task w))
             Hf E).
  - destruct t; try reflexivity. simpl. f_equal.
    destruct Hf as (v & [-> | [-> | [-> | ->]]]);
      destruct reply as [|[[[f'|] [s'|]]|]]; reflexivity.
  - destruct t; try reflexivity. simpl. f_equal.
    destruct Hf as (v & [-> | [-> | [-> | ->]]]);
      destruct reply as [|[[[zones|]]|]]; reflexivity.
  - destruct t; try reflexivity. simpl. f_equal.
    destruct Hf as (v & [-> | [-> | [-> | ->]]]);
      destruct reply as [|[]]; reflexivity.
Qed.

(** X19. What the user types or selects while calls are in flight does
    not reach them: a change of the city, of a query or of the tab and
    the reply to any call in flight give the same world in either order,
    since a handler works with the values of the render it was started
    in. *)
Theorem typing_does_not_reach_calls_in_flight (w : World) (e r : Event) :
  input_change e = true ->
  is_reply r = true ->
  run parseFloat w [e; r] = run parseFloat w [r; e].
Proof.
  intros He Hr. destruct (step_input e He) as (f & Hf & Hstep).
  cbn [run]. rewrite Hstep, (reply_commutes f r w Hf Hr).
  destruct (step parseFloat w r) as [w1|]; [|reflexivity].
  simpl. now rewrite Hstep.
Qed.

(** X20. The map is fitted to the geometry of the answer: once a route
    answer with both routes is stored, [MapBounds] fits the map (or
    leaves it) exactly as it would for the routes of the payload; the
    labels added do not change the points. *)
Theorem map_fitted_to_answer (w : World) (id : nat) c s d (f sf : Route) :
  tasks w !! id = Some (RequestingRoute c s d) ->
  exists w',
    step parseFloat w (RouteReply id (Resolved (Some (mkRoutePayload (Some f) (Some sf)))))
    = Some w'
    /\ MapBounds (fastest (cells w')) (safest (cells w')) = MapBounds (Some f) (Some sf)
    /\ MapBounds_coords (fastest (cells w')) (safest (cells w'))
       = route_points (Some f) ++ route_points (Some sf).
Proof.
  intros Ht. rewrite (step_RouteReply parseFloat _ _ _ _ _ _ Ht), fetchRoutes_response_success.
  eexists. split; [reflexivity|]. cbn [snd cells]. split.
  - reflexivity.
  - rewrite <- MapBounds_coords_points. reflexivity.
Qed.

End MoreProperties.

(** ** Further steps of the session *)

(** X11, witness: the first render has neither. *)
Lemma buttons_need_their_location_witness :
  (exists w', step parseFloat_session initial_world ClickSOS = Some w'
              /\ alerts w' = ["Set a source first!"])
  /\ (exists w', step parseFloat_session initial_world ClickReport = Some w'
                 /\ alerts w' = ["Set a destination first!"]).
Proof.
  split.
  - destruct (proj1 (buttons_need_their_location parseFloat_session initial_world) eq_refl)
      as (w' & H1 & _ & _ & H2).
    exists w'. split; [exact H1 | exact H2].
  - destruct (proj2 (buttons_need_their_location parseFloat_session initial_world) eq_refl)
      as (w' & H1 & _ & _ & H2).
    exists w'. split; [exact H1 | exact H2].
Defined.

(** X7, witness: Indiranagar was found, the geocoder then fails on MG
    Road: no marker is written. *)
Lemma partial_resolution_discarded_witness :
  exists w',
    step parseFloat_session
         (world_after (geocoding_in_flight ++ [GeoReply 0 (Resolved [indiranagar])]))
         (GeoReply 0 Rejected) = Some w'
    /\ srcCoords (cells w') = None
    /\ alerts w' = ["Invalid source or destination"].
Proof.
  edestruct (fun c dq src =>
               partial_resolution_discarded parseFloat_session
                 (world_after (geocoding_in_flight ++ [GeoReply 0 (Resolved [indiranagar])]))
                 0 c dq src Rejected)
    as (w' & H1 & _ & H2 & _ & H3 & _);
    [vm_compute; reflexivity | right; left; reflexivity |].
  exists w'. split; [exact H1|]. rewrite H2, H3. split; reflexivity.
Defined.

(** X8, witness: only a destination was typed; it is geocoded all the
    same. *)
Lemma empty_source_query_fails_witness :
  exists w1,
    step parseFloat_session (world_after [ChangeDstQuery "MG Road"]) ClickGetRoutes = Some w1
    /\ cells w1 = cells (world_after [ChangeDstQuery "MG Road"]).
Proof.
  destruct (empty_source_query_fails parseFloat_session
              (world_after [ChangeDstQuery "MG Road"]) eq_refl) as (w1 & H1 & H2 & _).
  exists w1. split; [exact H1 | exact H2].
Defined.

(** X9, witness: only a source was typed; it is found and not marked. *)
Lemma empty_destination_query_fails_witness :
  exists w2,
    run parseFloat_session (world_after [ChangeSrcQuery "Indiranagar"])
        [ClickGetRoutes; GeoReply 0 (Resolved [indiranagar])] = Some w2
    /\ srcCoords (cells w2) = None
    /\ alerts w2 = ["Invalid source or destination"].
Proof.
  destruct (empty_destination_query_fails parseFloat_session
              (world_after [ChangeSrcQuery "Indiranagar"]) (Resolved [indiranagar]))
    as (w2 & H1 & H2 & H3 & _);
    [vm_compute; discriminate | reflexivity |].
  exists w2. split; [exact H1|]. rewrite H2, H3. split; reflexivity.
Defined.

(** X10, witness: Indiranagar to MG Road, all calls succeeding. *)
Lemma get_routes_succeeds_witness :
  exists w',
    run parseFloat_session
        (world_after [ChangeSrcQuery "Indiranagar"; ChangeDstQuery "MG Road"])
        [ClickGetRoutes; GeoReply 0 (Resolved [indiranagar]); GeoReply 0 (Resolved [mg_road]);
         RouteReply 0 (Resolved payload_A)] = Some w'
    /\ fastest (cells w') = Some (with_label fastest_A)
    /\ safest (cells w') = Some (with_label safest_A)
    /\ alerts w' = [].
Proof.
  destruct (get_routes_succeeds parseFloat_session
              (world_after [ChangeSrcQuery "Indiranagar"; ChangeDstQuery "MG Road"])
              indiranagar [] mg_road [] fastest_A safest_A)
    as (w' & H1 & H2 & H3 & _);
    [vm_compute; discriminate | vm_compute; discriminate |].
  exists w'. split; [exact H1|]. rewrite H2, H3. repeat split.
Defined.

(** X12, witness: SOS with a source, and the panic service fails. *)
Lemma panic_flow_witness :
  exists w1 w2,
    step parseFloat_session (world_after overlay_shown) ClickSOS = Some w1
    /\ step parseFloat_session w1 (PanicReply 2 Rejected) = Some w2
    /\ cells w2 = cells (world_after overlay_shown)
    /\ alerts w2 = ["Panic API failed"].
Proof.
  edestruct (fun sc => panic_flow parseFloat_session (world_after overlay_shown) sc Rejected)
    as (w1 & w2 & H1 & _ & _ & _ & H2 & H3 & H4 & _);
    [vm_compute; reflexivity |].
  exists w1, w2. split; [exact H1|]. split; [exact H2|]. split; [exact H3|].
  rewrite H4. reflexivity.
Defined.

(** X13, witness: the destination of the session is reported. *)
Lemma report_flow_witness :
  exists w',
    run parseFloat_session (world_after overlay_shown)
        [ClickReport; ReportReply 2 (Resolved tt)] = Some w'
    /\ reports (cells w') = [report_of (location_of parseFloat_session mg_road)]
    /\ alerts w' = ["Unsafe spot reported!"].
Proof.
  destruct (report_flow parseFloat_session (world_after overlay_shown)
              (location_of parseFloat_session mg_road) (Resolved tt))
    as (w' & H1 & H2 & H3 & _); [vm_compute; reflexivity |].
  exists w'. split; [exact H1|]. rewrite H2, H3. split; reflexivity.
Defined.

(** X14, witness: the destination of the session is reported twice. *)
Lemma report_twice_appends_twice_witness :
  exists w',
    run parseFloat_session (world_after overlay_shown)
        [ClickReport; ReportReply 2 (Resolved tt); ClickReport; ReportReply 3 (Resolved tt)]
    = Some w'
    /\ reports (cells w') = [report_of (location_of parseFloat_session mg_road);
                             report_of (location_of parseFloat_session mg_road)].
Proof.
  destruct (report_twice_appends_twice parseFloat_session (world_after overlay_shown)
              (location_of parseFloat_session mg_road))
    as (w' & H1 & H2 & _); [vm_compute; reflexivity |].
  exists w'. split; [exact H1|]. rewrite H2. reflexivity.
Defined.

(** X15, witness: the report button is pressed twice before any
    acknowledgement; both are acknowledged, one entry is kept. *)
Lemma overlapping_reports_lose_one_witness :
  exists w',
    run parseFloat_session (world_after (overlay_shown ++ [ClickReport; ClickReport]))
        [ReportReply 2 (Resolved tt); ReportReply 3 (Resolved tt)] = Some w'
    /\ length (reports (cells w')) = 1
    /\ alerts w' = ["Unsafe spot reported!"; "Unsafe spot reported!"].
Proof.
  edestruct (fun r da db =>
               overlapping_reports_lose_one parseFloat_session
                 (world_after (overlay_shown ++ [ClickReport; ClickReport])) 2 3 r da db)
    as (w' & H1 & _ & H2 & H3);
    [vm_compute; reflexivity | vm_compute; reflexivity | lia |].
  exists w'. split; [exact H1|]. rewrite H2, H3. split; reflexivity.
Defined.

Lemma session_reachable (es : list Event) :
  run parseFloat_session initial_world es <> None ->
  reachable parseFloat_session (world_after es).
Proof.
  intros H. exists es. unfold world_after.
  destruct (run parseFloat_session initial_world es); [reflexivity | now destruct H].
Qed.

(** X16, witness: the session with routes shown. *)
Lemma routes_come_together_labelled_witness :
  labelled (fastest (cells (world_after overlay_shown)))
  /\ labelled (safest (cells (world_after overlay_shown))).
Proof.
  destruct (routes_come_together_labelled parseFloat_session (world_after overlay_shown))
    as (_ & H1 & H2).
  - apply session_reachable. vm_compute. discriminate.
  - split; [exact H1 | exact H2].
Defined.

(** X17, witness: the session with routes shown has both markers. *)
Lemma markers_come_together_witness :
  length (route_markers (cells (world_after overlay_shown))) = 2.
Proof.
  destruct (markers_come_together parseFloat_session (world_after overlay_shown))
    as (_ & H & _).
  - apply session_reachable. vm_compute. discriminate.
  - apply H. left. vm_compute. discriminate.
Defined.

(** X18, witness: the session with routes shown has one card. *)
Lemma route_card_class_witness :
  length (route_cards (cells (world_after overlay_shown))) <= 1.
Proof.
  destruct (route_card_class parseFloat_session (world_after overlay_shown)) as (H & _).
  - apply session_reachable. vm_compute. discriminate.
  - exact H.
Defined.

(** X19, witness: the city is changed while the route request of the
    session is in flight. *)
Lemma typing_does_not_reach_calls_in_flight_witness :
  run parseFloat_session (world_after overlay_shown_request_in_flight)
      [ChangeCity "mysuru"; RouteReply 2 (Resolved payload_B)]
  = run parseFloat_session (world_after overlay_shown_request_in_flight)
        [RouteReply 2 (Resolved payload_B); ChangeCity "mysuru"].
Proof.
  apply (typing_does_not_reach_calls_in_flight parseFloat_session
           (world_after overlay_shown_request_in_flight)
           (ChangeCity "mysuru") (RouteReply 2 (Resolved payload_B))); reflexivity.
Defined.

(** X20, witness: the answer for Koramangala arrives. *)
Lemma map_fitted_to_answer_witness :
  exists w',
    step parseFloat_session (world_after overlay_shown_request_in_flight)
         (RouteReply 2 (Resolved payload_B)) = Some w'
    /\ MapBounds (fastest (cells w')) (safest (cells w'))
       = MapBounds (Some fastest_B) (Some safest_B).
Proof.
  edestruct (fun c s d =>
               map_fitted_to_answer parseFloat_session
                 (world_after overlay_shown_request_in_flight) 2 c s d fastest_B safest_B)
    as (w' & H1 & H2 & _); [vm_compute; reflexivity |].
  exists w'. split; [exact H1 | exact H2].
Defined.
